(** * Build orchestrator and webhook event bus: a shallow embedding

    The orchestration hook ([useProjectOrchestrator]) and the webhook service
    ([WebhookService]) are embedded as executable Rocq functions.  Asynchronous
    handlers become state-passing functions over the environment they talk to;
    every [dispatch] to the reducer is recorded in a chronological log. *)

From Stdlib Require Import String Ascii List Bool Arith NArith ZArith Lia.
From Stdlib.Strings Require Import Byte.
From Stdlib Require Import DecimalString.
From stdpp Require Import base option list gmap strings.
Import ListNotations.

Local Open Scope string_scope.
Local Open Scope list_scope.

(** ** JavaScript string and array primitives used by the sources *)

Module JS.

(** Truthiness of an optional string: [undefined], [null] and the empty
    string are falsy. *)
Definition truthy (o : option string) : bool :=
  match o with
  | Some s => negb (String.eqb s "")
  | None => false
  end.

(** [String.prototype.includes]. *)
Fixpoint includes (s sub : string) : bool :=
  String.prefix sub s ||
  match s with
  | EmptyString => false
  | String _ s' => includes s' sub
  end.

(** [String.prototype.endsWith]. *)
Definition endsWith (s suffix : string) : bool :=
  let ls := String.length s in
  let lf := String.length suffix in
  (lf <=? ls)%nat && String.eqb (String.substring (ls - lf) lf s) suffix.

(** [Array.prototype.includes] on an array of strings. *)
Definition array_includes (l : list string) (x : string) : bool :=
  existsb (String.eqb x) l.

(** [Array.prototype.slice(start)] with one integer argument: a negative
    [start] counts from the end. *)
Definition slice {A} (l : list A) (start : Z) : list A :=
  let len := Z.of_nat (length l) in
  let k := if (start <? 0)%Z then Z.max (len + start) 0 else Z.min start len in
  skipn (Z.to_nat k) l.

(** [String.prototype.padStart(targetLength, "0")]. *)
Definition padStart0 (targetLength : nat) (s : string) : string :=
  String.concat "" (repeat "0" (targetLength - String.length s)) +:+ s.

(** A non-negative integer interpolated into a template string. *)
Definition Number_toString (n : nat) : string :=
  NilEmpty.string_of_uint (Nat.to_uint n).

End JS.

(** ** The webhook service (event bus) *)

Module Webhook.

Inductive WebhookEventType :=
| project_created | project_updated | ideation_completed | plan_generated
| code_generated | code_updated | test_passed | test_failed
| build_started | build_completed | build_failed
| deployment_started | deployment_completed | deployment_failed
| error_occurred.

(** The string literal each member of the union type stands for. *)
Definition event_type_name (t : WebhookEventType) : string :=
  match t with
  | project_created => "project.created"
  | project_updated => "project.updated"
  | ideation_completed => "ideation.completed"
  | plan_generated => "plan.generated"
  | code_generated => "code.generated"
  | code_updated => "code.updated"
  | test_passed => "test.passed"
  | test_failed => "test.failed"
  | build_started => "build.started"
  | build_completed => "build.completed"
  | build_failed => "build.failed"
  | deployment_started => "deployment.started"
  | deployment_completed => "deployment.completed"
  | deployment_failed => "deployment.failed"
  | error_occurred => "error.occurred"
  end.

(** [data: any] is carried as an opaque text. *)
Record WebhookEvent := {
  id : string;
  type : string;
  timestamp : string;
  data : string;
  source : string
}.

Record WebhookSubscription := {
  sub_id : string;
  url : string;
  events : list string;
  active : bool;
  secret : option string;
  headers : option (gmap string string)
}.

(** The argument of [subscribe], of type [Omit<WebhookSubscription, 'id'>].
    An object that has an [id] of its own is of that type too (only object
    literals are checked for excess properties): [init_id] is that own
    property when the argument has one. *)
Record SubscriptionInit := {
  init_id : option string;
  init_url : string;
  init_events : list string;
  init_active : bool;
  init_secret : option string;
  init_headers : option (gmap string string)
}.

(** [{ id, ...subscription }]: the spread comes after [id], so every field
    of the caller's object is copied, its [active] flag included, and an
    [id] of the caller's object replaces the fresh one. *)
Definition spread_init (id : string) (subscription : SubscriptionInit)
  : WebhookSubscription :=
  {| sub_id := default id (init_id subscription);
     url := init_url subscription;
     events := init_events subscription;
     active := init_active subscription;
     secret := init_secret subscription;
     headers := init_headers subscription |}.

(** A later [active: b] entry of an object literal overwrites the flag. *)
Definition with_active (b : bool) (sub : WebhookSubscription) : WebhookSubscription :=
  {| sub_id := sub_id sub;
     url := url sub;
     events := events sub;
     active := b;
     secret := secret sub;
     headers := headers sub |}.

(** *** [Map<string, WebhookSubscription>], in insertion order *)

Definition SubscriptionMap := list (string * WebhookSubscription).

Fixpoint Map_set (k : string) (v : WebhookSubscription) (m : SubscriptionMap)
  : SubscriptionMap :=
  match m with
  | [] => [(k, v)]
  | (k', v') :: m' =>
      if String.eqb k k' then (k, v) :: m' else (k', v') :: Map_set k v m'
  end.

Fixpoint Map_get (k : string) (m : SubscriptionMap) : option WebhookSubscription :=
  match m with
  | [] => None
  | (k', v') :: m' => if String.eqb k k' then Some v' else Map_get k m'
  end.

Fixpoint Map_delete (k : string) (m : SubscriptionMap) : bool * SubscriptionMap :=
  match m with
  | [] => (false, [])
  | (k', v') :: m' =>
      if String.eqb k k' then (true, m')
      else let '(found, rest) := Map_delete k m' in (found, (k', v') :: rest)
  end.

Definition Map_values (m : SubscriptionMap) : list WebhookSubscription :=
  map snd m.

Record WebhookService := {
  subscriptions : SubscriptionMap;
  eventQueue : list WebhookEvent;
  isProcessing : bool
}.

(** [new WebhookService()]. *)
Definition webhookService : WebhookService :=
  {| subscriptions := []; eventQueue := []; isProcessing := false |}.

Definition set_subscriptions (m : SubscriptionMap) (s : WebhookService) :=
  {| subscriptions := m; eventQueue := eventQueue s; isProcessing := isProcessing s |}.
Definition set_eventQueue (q : list WebhookEvent) (s : WebhookService) :=
  {| subscriptions := subscriptions s; eventQueue := q; isProcessing := isProcessing s |}.
Definition set_isProcessing (b : bool) (s : WebhookService) :=
  {| subscriptions := subscriptions s; eventQueue := eventQueue s; isProcessing := b |}.

(** *** Requests, responses and completions *)

Record Request := {
  req_url : string;
  req_method : string;
  req_headers : gmap string string;
  req_body : string
}.

(** What [await fetch(...)] yields: a response, or a rejection (transport
    error). *)
Inductive FetchOutcome :=
| Responded (ok : bool) (status : nat) (statusText : string)
| Rejected (error : string).

(** How a call ends: it returns, or an exception escapes it. *)
Inductive Completion (A : Type) :=
| Returned (a : A)
| Threw (e : string).
Arguments Returned {A} a.
Arguments Threw {A} e.

(** A computation that writes [console.error] lines and may throw. *)
Definition Exec (A : Type) : Type := Completion A * list string.

Definition try_catch {A} (body : Exec A) (handler : string -> Exec A) : Exec A :=
  match body with
  | (Returned a, out) => (Returned a, out)
  | (Threw e, out) => let '(c, out') := handler e in (c, out ++ out')
  end.

(** *** Hexadecimal rendering of the digest *)

Definition hexDigit (n : N) : ascii :=
  match n with
  | 0 => "0" | 1 => "1" | 2 => "2" | 3 => "3" | 4 => "4" | 5 => "5"
  | 6 => "6" | 7 => "7" | 8 => "8" | 9 => "9" | 10 => "a" | 11 => "b"
  | 12 => "c" | 13 => "d" | 14 => "e" | _ => "f"
  end%N%char.

Fixpoint toString16_digits (fuel : nat) (n : N) (acc : string) : string :=
  match fuel with
  | O => acc
  | S fuel' =>
      let acc' := String (hexDigit (n mod 16)) acc in
      if (n / 16 =? 0)%N then acc' else toString16_digits fuel' (n / 16)%N acc'
  end.

(** [Number.prototype.toString(16)] on a non-negative integer. *)
Definition toString16 (n : N) : string :=
  toString16_digits (S (N.to_nat n)) n "".

(** [new TextEncoder().encode(s)]: strings are held as their UTF-8 bytes. *)
Definition TextEncoder_encode (s : string) : list byte := list_byte_of_string s.

Section Service.

(** The runtime the service calls into: [crypto.randomUUID()],
    [new Date().toISOString()] (both read and advance the world),
    [crypto.subtle] HMAC with SHA-256 (key bytes, then message bytes) and
    [JSON.stringify] on an event. *)
Context {World : Type}.
Variable randomUUID : World -> string * World.
Variable Date_now_toISOString : World -> string * World.
Variable hmac_sha256 : list byte -> list byte -> list byte.
Variable JSON_stringify : WebhookEvent -> string.

(** [subscribe]: the spread copies the caller's fields after [id], then
    [active: true] is written last. *)
Definition subscribe (subscription : SubscriptionInit) (w : World) (s : WebhookService)
  : string * World * WebhookService :=
  let '(id, w') := randomUUID w in
  let fullSubscription := with_active true (spread_init id subscription) in
  (id, w', set_subscriptions (Map_set id fullSubscription (subscriptions s)) s).

Definition unsubscribe (subscriptionId : string) (s : WebhookService)
  : bool * WebhookService :=
  let '(found, m) := Map_delete subscriptionId (subscriptions s) in
  (found, set_subscriptions m s).

Definition getSubscriptions (s : WebhookService) : list WebhookSubscription :=
  List.filter (fun sub => active sub) (Map_values (subscriptions s)).

(** [generateSignature].  [importKey] takes the bytes of the secret as a raw
    HMAC key and refuses a key of length zero with a [DataError]: for the
    empty secret the call rejects, which is [None] here. *)
Definition generateSignature (payload secret : string) : option string :=
  match TextEncoder_encode secret with
  | [] => None
  | _ :: _ =>
      let signature :=
        hmac_sha256 (TextEncoder_encode secret) (TextEncoder_encode payload) in
      let hashArray := signature in
      let hashHex :=
        String.concat ""
          (map (fun b => JS.padStart0 2 (toString16 (Byte.to_N b))) hashArray) in
      Some ("sha256=" +:+ hashHex)
  end.

(** [validateSignature] awaits [generateSignature] and rejects when it
    does. *)
Definition validateSignature (payload signature secret : string) : option bool :=
  match generateSignature payload secret with
  | Some expectedSignature => Some (String.eqb signature expectedSignature)
  | None => None
  end.

Definition getEventHistory (limit : Z) (s : WebhookService) : list WebhookEvent :=
  JS.slice (eventQueue s) (- limit).

(** *** Delivery *)

(** [{ ...base, ...extra }]: entries of [extra] win; spreading
    [undefined] adds nothing. *)
Definition object_spread (base : gmap string string) (extra : option (gmap string string))
  : gmap string string :=
  match extra with
  | Some h => h ∪ base
  | None => base
  end.

(** The entries the object literal of [deliverEvent] lists before the
    spread. *)
Definition required_headers (event : WebhookEvent) : gmap string string :=
  <["X-Webhook-Timestamp" := timestamp event]>
    (<["X-Webhook-ID" := id event]>
       (<["X-Webhook-Event" := type event]>
          (<["Content-Type" := "application/json"]> ∅))).

(** The headers of a delivery.  Inside [if (subscription.secret)] the secret
    is not empty, and [generateSignature] rejects for the empty secret
    only: the branch for a rejection is never taken. *)
Definition deliverEvent_headers (event : WebhookEvent) (subscription : WebhookSubscription)
  : gmap string string :=
  let h := object_spread (required_headers event) (headers subscription) in
  match secret subscription with
  | Some sec =>
      if JS.truthy (Some sec)
      then match generateSignature (JSON_stringify event) sec with
           | Some signature => <["X-Webhook-Signature" := signature]> h
           | None => h
           end
      else h
  | None => h
  end.

(** The first half of [deliverEvent]: the request handed to [fetch]. *)
Definition deliverEvent_request (event : WebhookEvent) (subscription : WebhookSubscription)
  : Request :=
  {| req_url := url subscription;
     req_method := "POST";
     req_headers := deliverEvent_headers event subscription;
     req_body := JSON_stringify event |}.

(** The second half of [deliverEvent]: what happens once [await fetch]
    yields, inside the [try] with its [catch]. *)
Definition deliverEvent_settle (subscription : WebhookSubscription) (o : FetchOutcome)
  : Exec unit :=
  try_catch
    (match o with
     | Rejected error => (Threw error, [])
     | Responded ok status statusText =>
         (Returned tt,
          if ok then []
          else ["Webhook delivery failed for " +:+ sub_id subscription +:+ ": "
                +:+ JS.Number_toString status +:+ " " +:+ statusText])
     end)
    (fun error =>
       (Returned tt,
        ["Webhook delivery error for " +:+ sub_id subscription +:+ ": " +:+ error])).

(** *** The bus as a transition system

    One [processQueue] call suspended at [await Promise.allSettled] is a
    drain: the list of its deliveries that have not settled yet.  The trace
    records what happened, in order. *)

Record Delivery := {
  d_event : WebhookEvent;
  d_subscription : WebhookSubscription
}.

Inductive Obs :=
| ObsEmit (event : WebhookEvent)
| ObsDrainStart
| ObsShift (event : WebhookEvent)
| ObsFetch (event : WebhookEvent) (subscription : WebhookSubscription) (r : Request)
| ObsSettle (event : WebhookEvent) (subscription : WebhookSubscription) (o : FetchOutcome)
| ObsConsole (line : string)
| ObsDrainEnd.

Record Bus := {
  service : WebhookService;
  world : World;
  drains : list (list Delivery);
  trace : list Obs
}.

Definition relevant (event : WebhookEvent) (s : WebhookService)
  : list WebhookSubscription :=
  List.filter
    (fun sub => active sub && JS.array_includes (events sub) (type event))
    (Map_values (subscriptions s)).

(** One evaluation of the [while] condition of [processQueue] by drain [i],
    followed either by the loop body up to its [await] or by the exit. *)
Definition drain_next (i : nat) (b : Bus) : Bus :=
  match eventQueue (service b) with
  | [] =>
      {| service := set_isProcessing false (service b);
         world := world b;
         drains := delete i (drains b);
         trace := trace b ++ [ObsDrainEnd] |}
  | event :: rest =>
      let relevantSubscriptions := relevant event (service b) in
      {| service := set_eventQueue rest (service b);
         world := world b;
         drains := <[i := map (Build_Delivery event) relevantSubscriptions]> (drains b);
         trace := trace b ++ ObsShift event ::
                    map (fun sub => ObsFetch event sub (deliverEvent_request event sub))
                        relevantSubscriptions |}
  end.

(** [processQueue] from its call to its first suspension. *)
Definition processQueue (b : Bus) : Bus :=
  drain_next (length (drains b))
    {| service := set_isProcessing true (service b);
       world := world b;
       drains := drains b ++ [[]];
       trace := trace b ++ [ObsDrainStart] |}.

Definition emit (eventType : WebhookEventType) (data : string) (source : option string)
           (b : Bus) : Bus :=
  let '(uuid, w1) := randomUUID (world b) in
  let '(now, w2) := Date_now_toISOString w1 in
  let event :=
    {| id := uuid;
       type := event_type_name eventType;
       timestamp := now;
       data := data;
       source := default "sdlc-agent" source |} in
  let b1 :=
    {| service := set_eventQueue (eventQueue (service b) ++ [event]) (service b);
       world := w2;
       drains := drains b;
       trace := trace b ++ [ObsEmit event] |} in
  if negb (isProcessing (service b1)) then processQueue b1 else b1.

(** Delivery [k] of drain [i] settles with outcome [o]. *)
Definition settle (i k : nat) (o : FetchOutcome) (b : Bus) : Bus :=
  match drains b !! i with
  | Some pending =>
      match pending !! k with
      | Some d =>
          {| service := service b;
             world := world b;
             drains := <[i := delete k pending]> (drains b);
             trace := trace b ++ ObsSettle (d_event d) (d_subscription d) o ::
                        map ObsConsole (snd (deliverEvent_settle (d_subscription d) o)) |}
      | None => b
      end
  | None => b
  end.

(** Drain [i] resumes after [Promise.allSettled]: only once every one of
    its deliveries has settled. *)
Definition resume (i : nat) (b : Bus) : Bus :=
  match drains b !! i with
  | Some [] => drain_next i b
  | _ => b
  end.

Inductive Label :=
| Subscribe (subscription : SubscriptionInit)
| Unsubscribe (subscriptionId : string)
| Emit (eventType : WebhookEventType) (data : string) (source : option string)
| Settle (i k : nat) (o : FetchOutcome)
| Resume (i : nat).

Definition step (b : Bus) (l : Label) : Bus :=
  match l with
  | Subscribe subscription =>
      let '(_, w', s') := subscribe subscription (world b) (service b) in
      {| service := s'; world := w'; drains := drains b; trace := trace b |}
  | Unsubscribe subscriptionId =>
      {| service := snd (unsubscribe subscriptionId (service b));
         world := world b; drains := drains b; trace := trace b |}
  | Emit eventType data source => emit eventType data source b
  | Settle i k o => settle i k o b
  | Resume i => resume i b
  end.

Definition run (ls : list Label) (b : Bus) : Bus := fold_left step ls b.

(** A bus at rest: any subscriptions, nothing queued, no drain. *)
Definition idle_bus (subs : SubscriptionMap) (w : World) : Bus :=
  {| service := {| subscriptions := subs; eventQueue := []; isProcessing := false |};
     world := w; drains := []; trace := [] |}.

(** *** Reading the trace *)

Definition emitted (tr : list Obs) : list WebhookEvent :=
  omap (fun o => match o with ObsEmit e => Some e | _ => None end) tr.

Definition shifted (tr : list Obs) : list WebhookEvent :=
  omap (fun o => match o with ObsShift e => Some e | _ => None end) tr.

Definition fetched (tr : list Obs) : list (WebhookEvent * WebhookSubscription) :=
  omap (fun o => match o with ObsFetch e s _ => Some (e, s) | _ => None end) tr.

(** The number of deliveries started and not yet settled at the end of a
    trace, provided every event was taken while none was outstanding;
    [None] when some event was taken too early. *)
Definition count_outstanding (acc : option nat) (o : Obs) : option nat :=
  match acc with
  | None => None
  | Some n =>
      match o with
      | ObsShift _ => if (n =? 0)%nat then Some 0%nat else None
      | ObsFetch _ _ _ => Some (S n)
      | ObsSettle _ _ _ => Some (pred n)
      | _ => Some n
      end
  end.

Definition outstanding (tr : list Obs) : option nat :=
  fold_left count_outstanding tr (Some 0%nat).

(** A delivery goes only to an active subscription that lists the type. *)
Definition matches (d : WebhookEvent * WebhookSubscription) : bool :=
  active d.2 && JS.array_includes (events d.2) (type d.1).

(** The trace with the outcomes of deliveries forgotten. *)
Definition outcome_free (tr : list Obs) : list Obs :=
  omap (fun o => match o with
                 | ObsConsole _ => None
                 | ObsSettle e s _ => Some (ObsSettle e s (Responded true 200 "OK"))
                 | _ => Some o
                 end) tr.

Definition succeed (l : Label) : Label :=
  match l with
  | Settle i k _ => Settle i k (Responded true 200 "OK")
  | _ => l
  end.

End Service.

Arguments Bus World : clear implicits.

End Webhook.

(** ** The project orchestrator hook *)

Module Orchestrator.

(** *** Data model *)

Inductive AgentName :=
| Orchestrator_agent | Market_Analyst | Product_Strategist | Frontend_Expert
| Backend_Expert | DB_Architect | QA_Engineer | Debugger | Senior_Architect
| DevOps_Engineer | Security_Analyst | Software_Architect
| Full_Stack_Developer | UI_UX_Expert.

Inductive AgentStatus :=
| Idle | Thinking | Researching | Planning | Coding | Testing | Debugging
| Refactoring | Deploying | Auditing | Ingesting.

Inductive FileKind := file | directory.
Inductive FileStatus := planned | generating | generated | modified | error.
Inductive TestStatus := untested | passing | failing.
Inductive ChatRole := user | assistant | system.
Inductive EntryStatus := info | success | failure | warning.

#[global] Instance FileKind_eq_dec : EqDecision FileKind.
Proof. solve_decision. Defined.
#[global] Instance FileStatus_eq_dec : EqDecision FileStatus.
Proof. solve_decision. Defined.

#[warnings="-register-all"]
Inductive ProjectFile := Build_ProjectFile {
  path : string;
  type : FileKind;
  children : list ProjectFile;
  code : option string;
  status : FileStatus;
  testStatus : TestStatus;
  testError : option string
}.

Record TechStack := {
  frontend : list string;
  backend : list string;
  database : string;
  deployment : list string
}.

Record AppPlan := {
  projectName : string;
  description : string;
  techStack : TechStack;
  fileStructure : list ProjectFile
}.

Record ChatMessage := {
  id : string;
  role : ChatRole;
  content : string;
  timestamp : string
}.

Record TerminalEntry := {
  agent : AgentName;
  message : string;
  entry_status : EntryStatus
}.

(** The actions the hook hands to the reducer, as its [dispatch] calls
    build them. *)
Inductive Action :=
| ADD_CHAT_MESSAGE (payload : ChatMessage)
| ADD_TERMINAL_ENTRY (payload : TerminalEntry)
| UPDATE_AGENT_STATUS (name : AgentName) (status : AgentStatus)
| UPDATE_FILE_CODE (path code : string)
| UPDATE_FILE_TEST_STATUS (path : string) (testStatus : TestStatus)
                          (testError : option string)
| SET_ERROR (payload : option string)
| SET_FILE_STATUS (path : string) (status : FileStatus)
| SET_LOADING (isLoading : bool) (message : option string)
| ADD_FILE (path : string)
| SET_BUILD_STATUS (payload : bool)
| CLEAR_TERMINAL.

(** What a handler can do to the outside: hand an action to the reducer, or
    emit a lifecycle event through [emitWebhookEvent].  The hook does not
    import the webhook service, so no handler below emits. *)
Inductive Effect :=
| Dispatch (a : Action)
| EmitWebhook (eventType : Webhook.WebhookEventType) (data : string)
              (source : option string).

(** *** File-tree utilities *)

(** Modelled from the spec: [flattenFileTree] of [utils/fileTree.ts], the
    pre-order sequence of every node, directories before their children and
    siblings in tree order. *)
Fixpoint flattenNode (f : ProjectFile) : list ProjectFile :=
  f :: flat_map flattenNode (children f).

Definition flattenFileTree (nodes : list ProjectFile) : list ProjectFile :=
  flat_map flattenNode nodes.

(** Modelled from the spec: [findFileByPath] of [utils/fileTree.ts], the
    node at a path or a not-found signal. *)
Definition findFileByPath (nodes : list ProjectFile) (p : string) : option ProjectFile :=
  List.find (fun f => String.eqb (path f) p) (flattenFileTree nodes).

(** *** Collaborators *)

Record PlanModificationRequest := {
  action : string;
  request_path : string;
  reason : string
}.

(** [generateCodeForFile] resolves to code and an optional plan
    modification, or rejects; a rejection that is an [Error] carries its
    message. *)
Inductive GenerationResult :=
| Generated (code : string) (planModificationRequest : option PlanModificationRequest)
| GenerationThrew (errorMessage : option string).

Record TestResult := {
  isSuccess : bool;
  errorMessage : string
}.

Inductive DebugResult :=
| DebugReturned (fixedCode : option string)
| DebugThrew.

(** The services the hook awaits, as transformers of the world they live
    in. *)
Record Collaborators (World : Type) := {
  randomUUID : World -> string * World;
  Date_now_toISOString : World -> string * World;
  getRelevantKnowledge : string -> World -> list string * World;
  learnFromSuccess : string -> string -> World -> World;
  generateCodeForFile :
    ProjectFile -> AppPlan -> list string -> list ProjectFile -> World
    -> GenerationResult * World;
  generateTestError : string -> World -> TestResult * World;
  debugCode : string -> string -> World -> DebugResult * World
}.
Arguments randomUUID {World}.
Arguments Date_now_toISOString {World}.
Arguments getRelevantKnowledge {World}.
Arguments learnFromSuccess {World}.
Arguments generateCodeForFile {World}.
Arguments generateTestError {World}.
Arguments debugCode {World}.

(** *** Handler state and its monad *)

(** [isBuildingRef] is the content of the flag object of the render the
    handlers are called from, the one [handleBuildProject] writes. *)
Record St (World : Type) := {
  world : World;
  log : list Effect;
  isBuildingRef : bool
}.
Arguments world {World}.
Arguments log {World}.
Arguments isBuildingRef {World}.
Arguments Build_St {World}.

(** A handler run: [None] when the allotted number of [handleRunTests]
    invocations ran out before the handler returned. *)
Definition M (World A : Type) : Type := St World -> option A * St World.

Definition ret {World A} (a : A) : M World A := fun s => (Some a, s).

Definition bind {World A B} (m : M World A) (k : A -> M World B) : M World B :=
  fun s =>
    match m s with
    | (Some a, s') => k a s'
    | (None, s') => (None, s')
    end.

Definition out_of_fuel {World A} : M World A := fun s => (None, s).

#[global] Instance M_ret {World} : MRet (M World) := @ret World.
#[global] Instance M_bind {World} : MBind (M World) :=
  fun A B k m => bind m k.

(** *** The flag object a handler holds

    [isBuildingRef] is a new object on every call of the hook.
    [handleBuildProject] is rebuilt on every render (one of its dependencies,
    [handleRunTests], is), so it writes the object of the render it is
    called from: the cell [isBuildingRef] of the state.  [useCallback] keeps
    the [handleGenerateCode] of the render in which [projectPlan] last
    changed, and that handler reads the object of its own render: the same
    cell when no render came in between, the object of an earlier render
    otherwise.  No running handler writes that other object, so its content
    is fixed while a handler runs. *)
Inductive HeldRef :=
| SameRender
| EarlierRender (current : bool).

(** What the held object contains when the cell of this render contains
    [own]. *)
Definition held_current (heldRef : HeldRef) (own : bool) : bool :=
  match heldRef with
  | SameRender => own
  | EarlierRender current => current
  end.

(** *** The handlers

    [projectPlan] is the value the hook destructured from the state it was
    called with: a handler reads that value for as long as it runs, and a
    [dispatch] hands an action to the reducer without changing it. *)

Section Handlers.

Context {World : Type}.
Variable services : Collaborators World.
Variable heldRef : HeldRef.
Variable projectPlan : option AppPlan.

Definition dispatch (a : Action) : M World unit :=
  fun s => (Some tt,
            {| world := world s;
               log := log s ++ [Dispatch a];
               isBuildingRef := isBuildingRef s |}).

(** Awaiting a collaborator. *)
Definition call {A} (f : World -> A * World) : M World A :=
  fun s => (Some (f (world s)).1,
            {| world := (f (world s)).2;
               log := log s;
               isBuildingRef := isBuildingRef s |}).

(** [isBuildingRef.current] as [handleGenerateCode] reads it: from the
    object it holds. *)
Definition read_isBuildingRef : M World bool :=
  fun s => (Some (held_current heldRef (isBuildingRef s)), s).

Definition write_isBuildingRef (b : bool) : M World unit :=
  fun s => (Some tt, {| world := world s; log := log s; isBuildingRef := b |}).

Definition when (b : bool) (m : M World unit) : M World unit :=
  if b then m else mret tt.

Definition addMessage (role : ChatRole) (content : string) : M World unit :=
  uuid ← call (randomUUID services);
  now ← call (Date_now_toISOString services);
  dispatch (ADD_CHAT_MESSAGE
              {| id := uuid; role := role; content := content; timestamp := now |}).

Definition addTerminalEntry (agent : AgentName) (message : string)
           (status : EntryStatus) : M World unit :=
  dispatch (ADD_TERMINAL_ENTRY
              {| agent := agent; message := message; entry_status := status |}).

Definition updateAgentStatus (agentName : AgentName) (status : AgentStatus)
  : M World unit :=
  dispatch (UPDATE_AGENT_STATUS agentName status).

Definition handleDebugCode (filePath : string) : M World bool :=
  match projectPlan with
  | None => mret false
  | Some plan =>
      match findFileByPath (fileStructure plan) filePath with
      | None => mret false
      | Some fileToDebug =>
          if negb (JS.truthy (code fileToDebug))
             || negb (JS.truthy (testError fileToDebug))
          then mret false
          else
            updateAgentStatus Debugger Debugging;;
            addTerminalEntry Debugger
              ("Attempting to fix bug in " +:+ filePath +:+ "...") info;;
            r ← call (debugCode services (default "" (code fileToDebug))
                                (default "" (testError fileToDebug)));
            (* the catch block, reached from a rejection or from the throw *)
            let caught : M World bool :=
              addTerminalEntry Debugger
                ("Failed to fix the bug in " +:+ filePath +:+ ".") failure;;
              updateAgentStatus Debugger Idle;;
              mret false in
            match r with
            | DebugReturned fixedCode =>
                if JS.truthy fixedCode
                then
                  dispatch (UPDATE_FILE_CODE filePath (default "" fixedCode));;
                  addTerminalEntry Debugger
                    ("Successfully applied a fix to " +:+ filePath
                     +:+ ". Re-running tests...") success;;
                  updateAgentStatus Debugger Idle;;
                  mret true
                else caught
            | DebugThrew => caught
            end
      end
  end.

(** [fuel] bounds the number of invocations of [handleRunTests], the
    recursive call after a fix included. *)
Fixpoint handleRunTests (fuel : nat) (filePath : string) : M World bool :=
  match fuel with
  | O => out_of_fuel
  | S fuel' =>
      match projectPlan with
      | None => mret false
      | Some plan =>
          match findFileByPath (fileStructure plan) filePath with
          | None => mret false
          | Some fileToTest =>
              if negb (JS.truthy (code fileToTest)) then mret false
              else
                let fileCode := default "" (code fileToTest) in
                updateAgentStatus QA_Engineer Testing;;
                addTerminalEntry QA_Engineer
                  ("Running tests on " +:+ filePath +:+ "...") info;;
                r ← call (generateTestError services fileCode);
                if isSuccess r then
                  dispatch (UPDATE_FILE_TEST_STATUS filePath passing None);;
                  addTerminalEntry QA_Engineer
                    ("Tests PASSED for " +:+ filePath) success;;
                  updateAgentStatus QA_Engineer Idle;;
                  call (fun w => (tt, learnFromSuccess services filePath fileCode w));;
                  mret true
                else
                  addTerminalEntry QA_Engineer
                    ("Tests FAILED for " +:+ filePath +:+ ": " +:+ errorMessage r)
                    failure;;
                  dispatch (UPDATE_FILE_TEST_STATUS filePath failing
                              (Some (errorMessage r)));;
                  updateAgentStatus QA_Engineer Idle;;
                  addMessage system
                    ("Tests failed for `" +:+ filePath
                     +:+ "`. Handing off to Debugger agent for self-healing.");;
                  fixed ← handleDebugCode filePath;
                  if fixed : bool then handleRunTests fuel' filePath
                  else
                    addMessage assistant
                      ("I tried to fix `" +:+ filePath
                       +:+ "` but couldn't resolve the issue. You may need to manually edit the code or ask me for specific changes.");;
                    mret false
          end
      end
  end.

Definition coderName_of (p : string) : AgentName :=
  if JS.includes p "src/components" || JS.endsWith p ".css"
     || JS.endsWith p "tailwind.config.js"
  then Frontend_Expert else Backend_Expert.

Definition handleGenerateCode (filePath : string) : M World bool :=
  match projectPlan with
  | None => mret false
  | Some plan =>
      match findFileByPath (fileStructure plan) filePath with
      | None => mret false
      | Some fileToGenerate =>
          if bool_decide (type fileToGenerate = directory) then mret false
          else
            let coderName := coderName_of (path fileToGenerate) in
            dispatch (SET_ERROR None);;
            updateAgentStatus coderName Coding;;
            building ← read_isBuildingRef;
            when (negb building)
              (addMessage system
                 ("(Consulting knowledge base for patterns related to `"
                  +:+ filePath +:+ "`...)");;
               addMessage assistant
                 ("On it! Generating code for `" +:+ filePath +:+ "`...");;
               dispatch (SET_LOADING true
                           (Some ("AI is writing code for " +:+ filePath +:+ "..."))));;
            addTerminalEntry coderName
              ("Generating code for " +:+ filePath +:+ "...") info;;
            (* try *)
            dispatch (SET_FILE_STATUS filePath generating);;
            let allFiles := flattenFileTree (fileStructure plan) in
            knowledge ← call (getRelevantKnowledge services filePath);
            g ← call (generateCodeForFile services fileToGenerate plan knowledge allFiles);
            result ←
              match g with
              | Generated code planModificationRequest =>
                  match planModificationRequest with
                  | Some request =>
                      when (String.eqb (action request) "createFile")
                        (let newFilePath := request_path request in
                         addMessage assistant
                           ("(Adaptive Planning) I realized I need a new file: "
                            +:+ reason request +:+ ". I've added `" +:+ newFilePath
                            +:+ "` to the file tree.");;
                         dispatch (ADD_FILE newFilePath))
                  | None => mret tt
                  end;;
                  dispatch (UPDATE_FILE_CODE filePath code);;
                  addTerminalEntry coderName
                    ("Code generation complete for " +:+ filePath +:+ ".") success;;
                  building ← read_isBuildingRef;
                  when (negb building)
                    (addMessage assistant
                       ("I've finished writing the code for `" +:+ filePath
                        +:+ "`. You can review it in the editor."));;
                  mret true
              | GenerationThrew err =>
                  (* catch *)
                  let errorMessage := default "An unknown error occurred." err in
                  dispatch (SET_ERROR
                              (Some ("Failed to generate code for " +:+ filePath +:+ ".")));;
                  dispatch (SET_FILE_STATUS filePath error);;
                  addTerminalEntry coderName
                    ("Code generation failed for " +:+ filePath +:+ ".") failure;;
                  building ← read_isBuildingRef;
                  when (negb building)
                    (addMessage assistant
                       ("Sorry, I hit a snag while generating code for `" +:+ filePath
                        +:+ "`: " +:+ errorMessage));;
                  mret false
              end;
            (* finally *)
            updateAgentStatus coderName Idle;;
            building ← read_isBuildingRef;
            when (negb building) (dispatch (SET_LOADING false None));;
            mret result
      end
  end.

(** The [for ... of] loop of [handleBuildProject] over the list computed
    before it; a [break] leaves the remaining files alone. *)
Fixpoint build_loop (fuel : nat) (filesToBuild : list ProjectFile) : M World unit :=
  match filesToBuild with
  | [] => mret tt
  | f :: rest =>
      addTerminalEntry Orchestrator_agent
        ("--- Starting work on " +:+ path f +:+ " ---") info;;
      generated ← handleGenerateCode (path f);
      if negb generated then
        addMessage system ("Build failed on " +:+ path f +:+ ". Halting process.");;
        addTerminalEntry Orchestrator_agent
          ("Build HALTED due to error in " +:+ path f +:+ ".") failure
      else
        testsPassed ← handleRunTests fuel (path f);
        if negb testsPassed then
          addMessage system
            ("Tests failed for " +:+ path f
             +:+ " and could not be self-healed. Halting build.");;
          addTerminalEntry Orchestrator_agent
            ("Build HALTED due to unresolvable test failure in " +:+ path f +:+ ".")
            failure
        else build_loop fuel rest
  end.

Definition filesToBuild_of (plan : AppPlan) : list ProjectFile :=
  List.filter
    (fun f => bool_decide (type f = file) && bool_decide (status f ≠ generated))
    (flattenFileTree (fileStructure plan)).

Definition handleBuildProject (fuel : nat) : M World unit :=
  match projectPlan with
  | None => mret tt
  | Some plan =>
      write_isBuildingRef true;;
      dispatch (SET_BUILD_STATUS true);;
      addMessage system "Starting full project build...";;
      dispatch CLEAR_TERMINAL;;
      let filesToBuild := filesToBuild_of plan in
      build_loop fuel filesToBuild;;
      addMessage system "Full project build process finished.";;
      write_isBuildingRef false;;
      dispatch (SET_BUILD_STATUS false)
  end.

End Handlers.

End Orchestrator.


(** ** Reading the log of a handler run *)

Module Log.
Import Orchestrator.

(** Paths for which code generation was started, in order. *)
Definition generation_attempts (l : list Effect) : list string :=
  omap (fun e => match e with
                 | Dispatch (SET_FILE_STATUS p generating) => Some p
                 | _ => None
                 end) l.

(** Code written to files, in order: by generation, or by the debugger as a
    fix. *)
Definition code_updates (l : list Effect) : list (string * string) :=
  omap (fun e => match e with
                 | Dispatch (UPDATE_FILE_CODE p c) => Some (p, c)
                 | _ => None
                 end) l.

(** Test runs started, in order: the agents set to [Testing]. *)
Definition test_runs (l : list Effect) : list AgentName :=
  omap (fun e => match e with
                 | Dispatch (UPDATE_AGENT_STATUS a Testing) => Some a
                 | _ => None
                 end) l.

(** Lifecycle events emitted to the webhook service, in order. *)
Definition webhooks_emitted (l : list Effect) : list Webhook.WebhookEventType :=
  omap (fun e => match e with
                 | EmitWebhook t _ _ => Some t
                 | _ => None
                 end) l.

(** Paths marked [error], in order. *)
Definition marked_error (l : list Effect) : list string :=
  omap (fun e => match e with
                 | Dispatch (SET_FILE_STATUS p error) => Some p
                 | _ => None
                 end) l.

(** Paths added to the tree by adaptive planning, in order. *)
Definition files_added (l : list Effect) : list string :=
  omap (fun e => match e with
                 | Dispatch (ADD_FILE p) => Some p
                 | _ => None
                 end) l.

(** Contents of the chat messages, in order. *)
Definition chat_contents (l : list Effect) : list string :=
  omap (fun e => match e with
                 | Dispatch (ADD_CHAT_MESSAGE m) => Some (content m)
                 | _ => None
                 end) l.

End Log.

(** ** Vocabulary for the log of a build *)

Module BuildTrace.
Import Orchestrator Log.

(** Effects that neither change a file status nor emit a lifecycle event. *)
Definition quiet_effect (e : Effect) : bool :=
  match e with
  | Dispatch (SET_FILE_STATUS _ _) | EmitWebhook _ _ _ => false
  | _ => true
  end.

Definition quiet (l : list Effect) : bool := forallb quiet_effect l.

(** The chat message [handleGenerateCode] adds after a failure, unless the
    flag it reads is set. *)
Definition snag_report (flag : bool) (p msg : string) : list string :=
  if flag then []
  else ["Sorry, I hit a snag while generating code for `" +:+ p +:+ "`: " +:+ msg].

(** What the loop reports when it stops on a generation failure. *)
Definition halt_report (p : string) (m : ChatMessage) : list Effect :=
  [Dispatch (ADD_CHAT_MESSAGE m);
   Dispatch (ADD_TERMINAL_ENTRY
               {| agent := Orchestrator_agent;
                  message := "Build HALTED due to error in " +:+ p +:+ ".";
                  entry_status := failure |})].

(** What [handleGenerateCode] still does after marking the file: it starts
    nothing and only reports, in the chat when the flag it reads is clear. *)
Definition after_mark (flag : bool) (p : string) (post : list Effect) : Prop :=
  quiet post = true ∧ test_runs post = []
  ∧ ∃ msg, chat_contents post = snag_report flag p msg.

(** What one [handleGenerateCode] call that read [flag] leaves in the
    log. *)
Definition gen_trace (filePath : string) (flag : bool) (r : bool) (new : list Effect)
  : Prop :=
  webhooks_emitted new = []
  ∧ ((r = false ∧ new = [])
     ∨ (r = true ∧ generation_attempts new = [filePath] ∧ marked_error new = [])
     ∨ (r = false ∧ ∃ pre post,
          new = pre ++ Dispatch (SET_FILE_STATUS filePath error) :: post
          ∧ generation_attempts pre = [filePath] ∧ marked_error pre = []
          ∧ after_mark flag filePath post)).

(** What the loop leaves in the log: no lifecycle event, generation started
    for an initial segment of its files, and at most one error mark, after
    which only the reports of the failure and of the halt follow. *)
Definition loop_trace (files : list ProjectFile) (flag : bool) (r : option unit)
           (new : list Effect) : Prop :=
  webhooks_emitted new = []
  ∧ generation_attempts new `prefix_of` map path files
  ∧ (marked_error new = []
     ∨ (r = Some tt ∧ ∃ pre p post m,
          new = pre ++ Dispatch (SET_FILE_STATUS p error) :: post ++ halt_report p m
          ∧ marked_error pre = []
          ∧ last (generation_attempts pre) = Some p
          ∧ after_mark flag p post
          ∧ content m = "Build failed on " +:+ p +:+ ". Halting process.")).

(** The effects of [handleBuildProject] around its loop. *)
Definition build_trace (plan : AppPlan) (flag : bool) (r : option unit) (building : bool)
           (new : list Effect) : Prop :=
  ∃ m0 r' mid tail,
    new = [Dispatch (SET_BUILD_STATUS true); Dispatch (ADD_CHAT_MESSAGE m0);
           Dispatch CLEAR_TERMINAL] ++ mid ++ tail
    ∧ loop_trace (filesToBuild_of plan) flag r' mid
    ∧ ((r = None ∧ r' = None ∧ tail = [] ∧ building = true)
       ∨ (r = Some tt ∧ r' = Some tt ∧ building = false
          ∧ ∃ m1, tail = [Dispatch (ADD_CHAT_MESSAGE m1); Dispatch (SET_BUILD_STATUS false)]
                  ∧ content m1 = "Full project build process finished.")).

(** The world after [n] chat messages: each draws an id and a time stamp. *)
Fixpoint after_messages {World} (services : Collaborators World) (n : nat) (w : World)
  : World :=
  match n with
  | O => w
  | S n' =>
      after_messages services n'
        (Date_now_toISOString services (randomUUID services w).2).2
  end.

End BuildTrace.

(** ** Concrete collaborators used to run the handlers *)

Module Demo.
Import Orchestrator.

(** The world is a counter: ids and timestamps are numbered from it. *)
Definition numbered_uuid (n : nat) : string * nat :=
  ("uuid-" +:+ JS.Number_toString n, S n).
Definition numbered_time (n : nat) : string * nat :=
  ("time-" +:+ JS.Number_toString n, S n).

Definition make_services
           (gen : ProjectFile -> GenerationResult)
           (test : string -> TestResult)
           (debug : string -> string -> DebugResult) : Collaborators nat :=
  {| randomUUID := numbered_uuid;
     Date_now_toISOString := numbered_time;
     getRelevantKnowledge := fun _ n => ([], n);
     learnFromSuccess := fun _ _ n => n;
     generateCodeForFile := fun f _ _ _ n => (gen f, n);
     generateTestError := fun c n => (test c, n);
     debugCode := fun c e n => (debug c e, n) |}.

Definition a_ts (c e : option string) (st : FileStatus) : ProjectFile :=
  Build_ProjectFile "src/a.ts" file [] c st untested e.

Definition src_dir (fs : list ProjectFile) : ProjectFile :=
  Build_ProjectFile "src" directory fs None planned untested None.

Definition plan_of (fs : list ProjectFile) : AppPlan :=
  {| projectName := "demo";
     description := "";
     techStack := {| frontend := []; backend := []; database := ""; deployment := [] |};
     fileStructure := fs |}.

Definition start (building : bool) : St nat :=
  {| world := 0; log := []; isBuildingRef := building |}.

(** Tests always fail and the debugger always answers with a fix. *)
Definition stubborn : Collaborators nat :=
  make_services
    (fun _ => Generated "generated" None)
    (fun _ => {| isSuccess := false; errorMessage := "assertion failed" |})
    (fun c _ => DebugReturned (Some (c +:+ "// patched"))).

Definition failing_plan : AppPlan :=
  plan_of [src_dir [a_ts (Some "code") (Some "assertion failed") modified]].

(** Generation asks for a new file, and every test passes. *)
Definition adaptive : Collaborators nat :=
  make_services
    (fun _ => Generated "generated"
                (Some {| action := "createFile";
                         request_path := "src/0-helper.ts";
                         reason := "a helper is needed" |}))
    (fun _ => {| isSuccess := true; errorMessage := "" |})
    (fun _ _ => DebugThrew).

Definition edited_plan : AppPlan :=
  plan_of [src_dir [a_ts (Some "draft") None modified]].

(** The first test run fails; once the chat has been told, tests pass. *)
Definition flaky : Collaborators nat :=
  {| randomUUID := numbered_uuid;
     Date_now_toISOString := numbered_time;
     getRelevantKnowledge := fun _ n => ([], n);
     learnFromSuccess := fun _ _ n => n;
     generateCodeForFile := fun _ _ _ _ n => (Generated "generated" None, n);
     generateTestError :=
       fun _ n => ({| isSuccess := (0 <? n)%nat; errorMessage := "assertion failed" |}, n);
     debugCode := fun c _ n => (DebugReturned (Some (c +:+ "// patched")), n) |}.

(** Generation is rejected. *)
Definition broken : Collaborators nat :=
  make_services
    (fun _ => GenerationThrew (Some "model unavailable"))
    (fun _ => {| isSuccess := true; errorMessage := "" |})
    (fun _ _ => DebugThrew).

Definition b_ts : ProjectFile :=
  Build_ProjectFile "src/b.ts" file [] None planned untested None.

Definition planned_plan : AppPlan :=
  plan_of [src_dir [a_ts None None planned; b_ts]].

(** The log of a build whose first generation is rejected. *)
Definition broken_build_log : list Effect :=
  Eval vm_compute in
    log (handleBuildProject broken SameRender (Some planned_plan) 3 (start false)).2.

(** The log of the same build started after a re-render: the handler reads
    the object of an earlier render, which nothing has set. *)
Definition rerendered_build_log : list Effect :=
  Eval vm_compute in
    log (handleBuildProject broken (EarlierRender false) (Some planned_plan) 3
           (start false)).2.

End Demo.

(** ** Vocabulary for the bus *)

Module BusTrace.
Import Webhook.

(** Hex encoding as the wire contract names it: two lowercase hexadecimal
    digits per byte, high nibble first. *)
Definition hex_pair (b : byte) : string :=
  String (hexDigit (N.shiftr (Byte.to_N b) 4))
         (String (hexDigit (N.land (Byte.to_N b) 15)) "").

Fixpoint hex_encode (bs : list byte) : string :=
  match bs with
  | [] => ""
  | b :: bs' => hex_pair b +:+ hex_encode bs'
  end.

(** What holds of the bus after every step. *)
Record bus_inv {World : Type} (b : Bus World) : Prop := {
  inv_fifo : shifted (trace b) ++ eventQueue (service b) = emitted (trace b);
  inv_match : forallb matches (fetched (trace b)) = true;
  inv_outstanding : outstanding (trace b) = Some (length (concat (drains b)));
  inv_single :
    (drains b = [] ∧ isProcessing (service b) = false)
    ∨ (∃ pending, drains b = [pending] ∧ isProcessing (service b) = true)
}.

(** Two buses that differ at most in the outcomes their traces record. *)
Definition same_but_outcomes {World : Type} (b b' : Bus World) : Prop :=
  service b = service b' ∧ world b = world b' ∧ drains b = drains b'
  ∧ outcome_free (trace b) = outcome_free (trace b').

(** The value sent under [name]: the subscriber's static header of that
    name when there is one, the event-derived value otherwise. *)
Definition sent (subscription : WebhookSubscription) (name derived : string)
  : option string :=
  Some (default derived (headers subscription ≫= (fun h => h !! name))).

End BusTrace.

(** ** The event bus on concrete inputs *)

Module BusDemo.
Import Webhook.

(** Stand-ins for the runtime: they only fix the parameters, no statement
    below depends on what they compute. *)
Definition stub_hmac (key message : list byte) : list byte := key ++ message.
Definition stub_json (event : WebhookEvent) : string := id event.

Definition build_failed_event : WebhookEvent :=
  {| id := "uuid-0";
     type := "build.failed";
     timestamp := "time-1";
     data := "{}";
     source := "sdlc-agent" |}.

(** A subscriber whose static headers name a required header. *)
Definition spoofing : WebhookSubscription :=
  {| sub_id := "sub-1";
     url := "https://hooks.test/in";
     events := ["build.failed"];
     active := true;
     secret := None;
     headers := Some {[ "X-Webhook-Event" := "test.passed" ]} |}.

Definition listener (name : string) (on : bool) : string * WebhookSubscription :=
  (name,
   {| sub_id := name;
      url := "https://hooks.test/" +:+ name;
      events := ["test.failed"];
      active := on;
      secret := None;
      headers := None |}).

Definition emit_on (subs : SubscriptionMap) (t : WebhookEventType) : Bus nat :=
  emit Demo.numbered_uuid Demo.numbered_time stub_hmac stub_json t "{}" None
    (idle_bus subs 0).

End BusDemo.

(** ** Further vocabulary for the log of a handler *)

Module BuildExtra.
Import Orchestrator Log.

(** Test statuses written to files, in order. *)
Definition test_outcomes (l : list Effect) : list TestStatus :=
  omap (fun e => match e with
                 | Dispatch (UPDATE_FILE_TEST_STATUS _ st _) => Some st
                 | _ => None
                 end) l.

(** Agent status changes, in order. *)
Definition agent_changes (l : list Effect) : list (AgentName * AgentStatus) :=
  omap (fun e => match e with
                 | Dispatch (UPDATE_AGENT_STATUS a st) => Some (a, st)
                 | _ => None
                 end) l.

(** Changes of the loading indicator, in order. *)
Definition loading_changes (l : list Effect) : list bool :=
  omap (fun e => match e with
                 | Dispatch (SET_LOADING b _) => Some b
                 | _ => None
                 end) l.

(** The node a handler finds for a path in the plan the hook holds. *)
Definition resolve (projectPlan : option AppPlan) (filePath : string) : option ProjectFile :=
  match projectPlan with
  | Some plan => findFileByPath (fileStructure plan) filePath
  | None => None
  end.

(** Whether [handleGenerateCode] goes past its guards: the path is a file
    of the plan. *)
Definition can_generate (projectPlan : option AppPlan) (filePath : string) : bool :=
  match resolve projectPlan filePath with
  | Some f => bool_decide (type f = file)
  | None => false
  end.

(** Whether [handleRunTests] goes past its guards: the plan has code for the
    path. *)
Definition can_test (projectPlan : option AppPlan) (filePath : string) : bool :=
  match resolve projectPlan filePath with
  | Some f => JS.truthy (code f)
  | None => false
  end.

(** Whether [handleDebugCode] goes past its guards: the plan has code and a
    test error for the path. *)
Definition can_debug (projectPlan : option AppPlan) (filePath : string) : bool :=
  match resolve projectPlan filePath with
  | Some f => JS.truthy (code f) && JS.truthy (testError f)
  | None => false
  end.

(** How test runs and fixes add up in what one [handleRunTests] call wrote:
    one more run than fixes when it returned, with the last status written
    matching the result; as many runs as fixes when it has not returned. *)
Definition accounted (r : option bool) (new : list Effect) : Prop :=
  match r with
  | Some true =>
      length (test_runs new) = S (length (code_updates new))
      ∧ last (test_outcomes new) = Some passing
  | Some false =>
      length (test_runs new) = S (length (code_updates new))
      ∧ last (test_outcomes new) = Some failing
  | None => length (test_runs new) = length (code_updates new)
  end.

End BuildExtra.

(** ** Further vocabulary for the bus *)

Module BusExtra.
Import Webhook.

(** A well-kept subscription map: no key twice, and every subscription
    active. *)
Definition store_ok (m : SubscriptionMap) : Prop :=
  NoDup (map fst m) ∧ Forall (fun kv => active kv.2 = true) m.

(** The entries of the map an event is delivered to, with their keys. *)
Definition relevant_entries (event : WebhookEvent) (m : SubscriptionMap)
  : SubscriptionMap :=
  List.filter
    (fun kv => active kv.2 && JS.array_includes (events kv.2) (type event)) m.

(** The value of a lowercase hexadecimal digit, from its character code. *)
Definition hex_value (c : ascii) : option N :=
  let n := N_of_ascii c in
  if (48 <=? n)%N && (n <=? 57)%N then Some (n - 48)%N
  else if (97 <=? n)%N && (n <=? 102)%N then Some (n - 87)%N
  else None.

(** Reading back a hex encoding, two digits per byte. *)
Fixpoint hex_decode (s : string) : option (list byte) :=
  match s with
  | EmptyString => Some []
  | String hi (String lo rest) =>
      match hex_value hi, hex_value lo, hex_decode rest with
      | Some h, Some l, Some bs =>
          match Byte.of_N (16 * h + l) with
          | Some b => Some (b :: bs)
          | None => None
          end
      | _, _, _ => None
      end
  | String _ EmptyString => None
  end.

(** Every pending delivery settles, then the drain resumes. *)
Definition flush_round (n : nat) : list Label :=
  repeat (Settle 0 0 (Responded true 200 "OK")) n ++ [Resume 0].

(** Rounds enough to take every queued event, each with settles enough for
    every delivery that can be pending. *)
Definition flush_labels {World} (b : Bus World) : list Label :=
  let n := Nat.max (length (subscriptions (service b))) (length (concat (drains b))) in
  concat (repeat (flush_round n) (S (length (eventQueue (service b))))).

(** The steps that only let time pass: a delivery settles, a drain resumes. *)
Definition settle_or_resume (l : Label) : bool :=
  match l with
  | Settle _ _ _ | Resume _ => true
  | _ => false
  end.

End BusExtra.

(** ** A subscriber with a secret *)

Module SigningDemo.
Import Webhook.

Definition signing : WebhookSubscription :=
  {| sub_id := "sub-2";
     url := "https://hooks.test/signed";
     events := ["build.failed"];
     active := true;
     secret := Some "s3cret";
     headers := Some {[ "X-Webhook-Signature" := "sha256=00" ]} |}.

Definition signing_init : SubscriptionInit :=
  {| init_id := None;
     init_url := "https://hooks.test/signed";
     init_events := ["build.failed"];
     init_active := false;
     init_secret := Some "s3cret";
     init_headers := None |}.

End SigningDemo.

(** ** The task router *)

Module Router.

Record Task := {
  task_id : string;
  task_type : string;
  payload : string
}.

Inductive Console :=
| console_log (line : string)
| console_error (line : string).

(** An awaited call resolves to a value or rejects. *)
Inductive Awaited (A : Type) :=
| Resolved (a : A)
| Rejected (reason : string).
Arguments Resolved {A}.
Arguments Rejected {A}.

Section RouteTask.

Context {World Agent : Type}.
Variable getAgentsForTask : string -> World -> Awaited (list Agent) * World.
Variable sendTaskToAgent : Agent -> Task -> World -> Awaited bool * World.

(** What a call of [routeTask] leaves behind: how its promise settled, the
    agents the task was sent to with their answers, in order, and the
    console lines written. *)
Record Routing := {
  settled : Awaited unit;
  world_after : World;
  contacted : list (Agent * Awaited bool);
  console : list Console
}.

(** The [for ... of] loop and the line after it. *)
Fixpoint route_loop (task : Task) (suitableAgents : list Agent) (w : World)
         (sent : list (Agent * Awaited bool)) : Routing :=
  match suitableAgents with
  | [] =>
      {| settled := Resolved tt;
         world_after := w;
         contacted := sent;
         console := [console_error ("Failed to route task " +:+ task_id task +:+ ".")] |}
  | agent :: rest =>
      let answer := (sendTaskToAgent agent task w).1 in
      let w' := (sendTaskToAgent agent task w).2 in
      match answer with
      | Resolved true =>
          {| settled := Resolved tt;
             world_after := w';
             contacted := sent ++ [(agent, answer)];
             console := [console_log ("Task " +:+ task_id task
                                      +:+ " routed successfully.")] |}
      | Resolved false => route_loop task rest w' (sent ++ [(agent, answer)])
      | Rejected reason =>
          {| settled := Rejected reason;
             world_after := w';
             contacted := sent ++ [(agent, answer)];
             console := [] |}
      end
  end.

Definition routeTask (task : Task) (w : World) : Routing :=
  let w' := (getAgentsForTask (task_type task) w).2 in
  match (getAgentsForTask (task_type task) w).1 with
  | Resolved suitableAgents => route_loop task suitableAgents w' []
  | Rejected reason =>
      {| settled := Rejected reason;
         world_after := w';
         contacted := [];
         console := [] |}
  end.

End RouteTask.

(** The answers of all agents contacted before the last one. *)
Definition earlier_answers {Agent} (sent : list (Agent * Awaited bool))
  : list (Awaited bool) :=
  map snd (removelast sent).

(** Two agents: the first declines every task, the second accepts. *)
Definition two_agents (t : string) (n : nat) : Awaited (list string) * nat :=
  (Resolved ["busy"; "free"], S n).
Definition busy_declines (agent : string) (task : Task) (n : nat) : Awaited bool * nat :=
  (Resolved (String.eqb agent "free"), S n).

End Router.

(** ** The AI provider hook *)

Module ProviderHook.

(** A thrown value: an [Error] with its message, or anything else. *)
Inductive Thrown :=
| Error (message : string)
| NotAnError.

Inductive Awaited (A : Type) :=
| Resolved (a : A)
| Rejected (err : Thrown).
Arguments Resolved {A}.
Arguments Rejected {A}.

(** [err instanceof Error ? err.message : fallback] *)
Definition message_or (fallback : string) (err : Thrown) : string :=
  match err with
  | Error message => message
  | NotAnError => fallback
  end.

Section Hook.

(** Providers and responses are opaque to the hook; of a provider it reads
    the name only. *)
Context {Provider Response : Type}.
Variable provider_name : Provider -> string.

(** The state cells of [useAIProvider] the handlers write. *)
Record HookState := {
  currentProvider : option Provider;
  currentProviderName : option string;
  isLoading : bool;
  error : option string
}.

Inductive Update :=
| setCurrentProvider (p : Provider)
| setCurrentProviderName (n : string)
| setIsLoading (b : bool)
| setError (e : option string).

Definition apply_update (st : HookState) (u : Update) : HookState :=
  match u with
  | setCurrentProvider p =>
      {| currentProvider := Some p;
         currentProviderName := currentProviderName st;
         isLoading := isLoading st;
         error := error st |}
  | setCurrentProviderName n =>
      {| currentProvider := currentProvider st;
         currentProviderName := Some n;
         isLoading := isLoading st;
         error := error st |}
  | setIsLoading b =>
      {| currentProvider := currentProvider st;
         currentProviderName := currentProviderName st;
         isLoading := b;
         error := error st |}
  | setError e =>
      {| currentProvider := currentProvider st;
         currentProviderName := currentProviderName st;
         isLoading := isLoading st;
         error := e |}
  end.

(** A block of a handler: the state updates it made and how it completed. *)
Definition Block (A : Type) : Type := list Update * Awaited A.

Definition try_catch {A} (body : Block A) (handler : Thrown -> Block A) : Block A :=
  match body.2 with
  | Resolved _ => body
  | Rejected err => (body.1 ++ (handler err).1, (handler err).2)
  end.

Definition try_finally {A} (body : Block A) (finalizer : list Update) : Block A :=
  (body.1 ++ finalizer, body.2).

Definition after {A} (updates : list Update) (body : Block A) : Block A :=
  (updates ++ body.1, body.2).

(** [switchProvider]; [factory] is how [AIProviderFactory.switchProvider]
    settled. *)
Definition switchProvider (providerName : string) (factory : Awaited (option Provider))
  : Block bool :=
  after [setIsLoading true; setError None]
    (try_finally
       (try_catch
          match factory with
          | Resolved (Some provider) =>
              ([setCurrentProvider provider; setCurrentProviderName providerName],
               Resolved true)
          | Resolved None => ([], Resolved false)
          | Rejected err => ([], Rejected err)
          end
          (fun err =>
             ([setError (Some (message_or "Failed to switch provider" err))],
              Resolved false)))
       [setIsLoading false]).

(** [generateContent], called on the hook in state [st]; [answer] is how the
    provider's own [generateContent] settles. *)
Definition generateContent (st : HookState) (answer : Provider -> Awaited Response)
  : Block Response :=
  match currentProvider st with
  | None => ([], Rejected (Error "No AI provider selected"))
  | Some provider =>
      after [setIsLoading true; setError None]
        (try_finally
           (try_catch
              ([], answer provider)
              (fun err =>
                 ([setError (Some (message_or "Failed to generate content" err))],
                  Rejected err)))
           [setIsLoading false])
  end.

(** The block both the mount effect and [initializeProviders] run when the
    factory has a default provider. *)
Definition adoptDefault (defaultProvider : Provider) : list Update :=
  [setCurrentProvider defaultProvider;
   setCurrentProviderName (provider_name defaultProvider)].

(** The [catch] block of [initializeProviders]. *)
Definition initializeFailed (err : Thrown) : list Update :=
  [setError (Some (message_or "Failed to initialize AI providers" err))].

(** What writes the four cells: calls of the two handlers, made one after
    the other, each on the hook as last rendered, an adoption of the default
    provider, and a failed initialization. *)
Inductive Call :=
| SwitchProvider (providerName : string) (factory : Awaited (option Provider))
| GenerateContent (answer : Provider -> Awaited Response)
| AdoptDefault (defaultProvider : Provider)
| InitializeFailed (err : Thrown).

Definition updates_of (st : HookState) (c : Call) : list Update :=
  match c with
  | SwitchProvider providerName factory => (switchProvider providerName factory).1
  | GenerateContent answer => (generateContent st answer).1
  | AdoptDefault defaultProvider => adoptDefault defaultProvider
  | InitializeFailed err => initializeFailed err
  end.

Definition call (st : HookState) (c : Call) : HookState :=
  fold_left apply_update (updates_of st c) st.

Definition calls (cs : list Call) (st : HookState) : HookState :=
  fold_left call cs st.

(** The state of [useAIProvider] before anything ran. *)
Definition initial : HookState :=
  {| currentProvider := None;
     currentProviderName := None;
     isLoading := false;
     error := None |}.

End Hook.

Arguments HookState Provider : clear implicits.
Arguments Update Provider : clear implicits.
Arguments Call Provider Response : clear implicits.

End ProviderHook.

(** ** The embedding on small inputs *)

Example includes_and_endsWith :
  JS.includes "src/components/App.tsx" "src/components" = true
  ∧ JS.includes "src/App.tsx" "src/components" = false
  ∧ JS.endsWith "src/index.css" ".css" = true
  ∧ JS.endsWith "css" ".css" = false.
Proof. vm_compute. repeat split. Qed.

Example slice_from_the_end :
  JS.slice [1; 2; 3; 4] (-2) = [3; 4]
  ∧ JS.slice [1; 2; 3] (-5) = [1; 2; 3]
  ∧ JS.slice [1; 2; 3] 0 = [1; 2; 3]
  ∧ JS.slice [1; 2; 3] 1 = [2; 3].
Proof. vm_compute. repeat split. Qed.

Example hexadecimal_digits :
  Webhook.toString16 255 = "ff"
  ∧ Webhook.toString16 0 = "0"
  ∧ JS.padStart0 2 (Webhook.toString16 10) = "0a"
  ∧ JS.Number_toString 404 = "404".
Proof. vm_compute. repeat split. Qed.

Example Map_set_keeps_insertion_order :
  let v := BusDemo.spoofing in
  map fst (Webhook.Map_set "a" v (Webhook.Map_set "b" v (Webhook.Map_set "a" v [])))
  = ["a"; "b"]
  ∧ (Webhook.Map_delete "a" [("a", v); ("b", v)]).1 = true
  ∧ (Webhook.Map_delete "c" [("a", v); ("b", v)]).1 = false.
Proof. vm_compute. repeat split. Qed.

Example flatten_is_preorder :
  map Orchestrator.path
      (Orchestrator.flattenFileTree (Orchestrator.fileStructure Demo.planned_plan))
  = ["src"; "src/a.ts"; "src/b.ts"]
  ∧ map Orchestrator.path (Orchestrator.filesToBuild_of Demo.planned_plan)
    = ["src/a.ts"; "src/b.ts"].
Proof. vm_compute. repeat split. Qed.

Example coder_by_path :
  Orchestrator.coderName_of "src/components/App.tsx" = Orchestrator.Frontend_Expert
  ∧ Orchestrator.coderName_of "tailwind.config.js" = Orchestrator.Frontend_Expert
  ∧ Orchestrator.coderName_of "server/index.ts" = Orchestrator.Backend_Expert.
Proof. vm_compute. repeat split. Qed.

(** A failed build dispatches 16 actions when [handleGenerateCode] comes
    from the render the build was started from, and 21 after a re-render:
    the handler then reads a flag object the build has not set, and
    narrates. *)
Example rerendered_build_narrates :
  length Demo.broken_build_log = 16
  ∧ length Demo.rerendered_build_log = 21
  ∧ Log.chat_contents (drop 13 Demo.rerendered_build_log)
    = ["Sorry, I hit a snag while generating code for `src/a.ts`: model unavailable";
       "Build failed on src/a.ts. Halting process.";
       "Full project build process finished."].
Proof. vm_compute. repeat split. Qed.

(** Tests fail once and pass after one fix: one debug attempt, two test
    runs, and [handleRunTests] returns true. *)
Example healed_after_one_fix :
  let r := Orchestrator.handleRunTests Demo.flaky (Some Demo.failing_plan) 5 "src/a.ts"
             (Demo.start false) in
  r.1 = Some true
  ∧ length (Log.code_updates (Orchestrator.log r.2)) = 1
  ∧ length (Log.test_runs (Orchestrator.log r.2)) = 2.
Proof. vm_compute. repeat split. Qed.

(** ** Properties of the orchestrator *)

Import Orchestrator Log BuildTrace.

Local Arguments handleDebugCode : simpl never.
Local Arguments handleGenerateCode : simpl never.

(** Runs the straight-line part of a handler. *)
Ltac exec :=
  repeat progress
    (unfold addMessage, addTerminalEntry, updateAgentStatus, dispatch, call, when,
       read_isBuildingRef, write_isBuildingRef, out_of_fuel,
       mbind, M_bind, bind, mret, M_ret, ret; cbn).

(** *** The self-healing loop *)

Lemma truthy_Some_ne (x : string) : x ≠ "" → JS.truthy (Some x) = true.
Proof.
  intros H. unfold JS.truthy.
  destruct (String.eqb_spec x ""); [contradiction | reflexivity].
Qed.

Section SelfHealing.

Context {World : Type} (services : Collaborators World).
Variables (plan : AppPlan) (filePath : string) (f : ProjectFile).

(** The plan the hook holds records code and a test error for the file. *)
Hypothesis file_found : findFileByPath (fileStructure plan) filePath = Some f.
Hypothesis has_code : JS.truthy (code f) = true.
Hypothesis has_testError : JS.truthy (testError f) = true.

Hypothesis tests_always_fail :
  ∀ c w, isSuccess (generateTestError services c w).1 = false.
Hypothesis debugger_always_fixes :
  ∀ c e w, ∃ fixed,
    (debugCode services c e w).1 = DebugReturned (Some fixed) ∧ fixed ≠ "".

(** One invocation of [handleRunTests] runs the tests, applies a fix and
    hands over to the next invocation. *)
Lemma self_heal_round fuel s :
  ∃ s', handleRunTests services (Some plan) (S fuel) filePath s
        = handleRunTests services (Some plan) fuel filePath s'
      ∧ length (test_runs (log s')) = S (length (test_runs (log s)))
      ∧ length (code_updates (log s')) = S (length (code_updates (log s))).
Proof.
  cbn [handleRunTests]. rewrite file_found, has_code. cbn [negb].
  exec. rewrite tests_always_fail.
  unfold handleDebugCode. rewrite file_found, has_code, has_testError. exec.
  match goal with
  | |- context [debugCode services ?c ?e ?w] =>
      destruct (debugger_always_fixes c e w) as (fixed & -> & Hne)
  end.
  rewrite (truthy_Some_ne _ Hne). exec.
  eexists. split; [reflexivity|]. cbn.
  unfold code_updates, test_runs. rewrite !omap_app. cbn.
  rewrite !length_app. cbn. lia.
Qed.

(** C1 (as the code has it): the self-healing loop has no iteration bound.
    When the plan held by the hook records code and a test error for the
    file, the test collaborator always reports failure and the debug
    collaborator always returns a fix, [handleRunTests] has not returned
    after any number [fuel] of invocations, and by then it has run the tests
    [fuel] times and applied [fuel] fixes. *)
Theorem handleRunTests_has_no_retry_bound fuel s :
  let r := handleRunTests services (Some plan) fuel filePath s in
  r.1 = None
  ∧ length (test_runs (log r.2)) = length (test_runs (log s)) + fuel
  ∧ length (code_updates (log r.2)) = length (code_updates (log s)) + fuel.
Proof.
  cbn zeta. revert s. induction fuel as [|fuel IH]; intros s.
  - cbn [handleRunTests]. exec. repeat split; lia.
  - destruct (self_heal_round fuel s) as (s' & -> & Ht & Hf).
    destruct (IH s') as (H1 & H2 & H3). rewrite H1, H2, H3. repeat split; lia.
Qed.

End SelfHealing.

Lemma stubborn_diverges fuel : ∀ s,
  (handleRunTests Demo.stubborn (Some Demo.failing_plan) fuel "src/a.ts" s).1 = None.
Proof.
  induction fuel as [|fuel IH]; intros s; [reflexivity|].
  destruct (self_heal_round Demo.stubborn Demo.failing_plan "src/a.ts"
              (Demo.a_ts (Some "code") (Some "assertion failed") modified))
    with (fuel := fuel) (s := s) as (s' & -> & _).
  - reflexivity.
  - reflexivity.
  - reflexivity.
  - intros; reflexivity.
  - intros c e w. eexists. split; [reflexivity|].
    cbn. destruct c; discriminate.
  - apply IH.
Qed.

(** C1, witness: seven invocations on the stubborn collaborators. *)
Lemma handleRunTests_has_no_retry_bound_witness :
  let r := handleRunTests Demo.stubborn (Some Demo.failing_plan) 7 "src/a.ts"
             (Demo.start false) in
  r.1 = None
  ∧ length (test_runs (log r.2)) = 7
  ∧ length (code_updates (log r.2)) = 7.
Proof.
  apply (handleRunTests_has_no_retry_bound Demo.stubborn Demo.failing_plan "src/a.ts"
           (Demo.a_ts (Some "code") (Some "assertion failed") modified)).
  - reflexivity.
  - reflexivity.
  - reflexivity.
  - intros; reflexivity.
  - intros c e w. eexists. split; [reflexivity|].
    cbn. destruct c; discriminate.
Defined.

(** C1, counterexample: with a test collaborator that always fails and a
    debug collaborator that always returns a fix, no number of invocations
    makes the self-healing loop return, with a failure or otherwise. *)
Lemma self_healing_never_terminates :
  ¬ ∃ fuel result,
      (handleRunTests Demo.stubborn (Some Demo.failing_plan) fuel "src/a.ts"
         (Demo.start false)).1 = Some result.
Proof.
  intros (fuel & result & H). rewrite stubborn_diverges in H. discriminate.
Qed.

(** *** The log of a whole build *)

Lemma quiet_app l1 l2 : quiet (l1 ++ l2) = quiet l1 && quiet l2.
Proof. apply forallb_app. Qed.

Lemma quiet_projections l :
  quiet l = true →
  generation_attempts l = [] ∧ marked_error l = [] ∧ webhooks_emitted l = [].
Proof.
  induction l as [|e l IH]; [done|].
  cbn. intros [He Hl]%andb_prop. destruct (IH Hl) as (H1 & H2 & H3).
  unfold generation_attempts, marked_error, webhooks_emitted in *.
  cbn. rewrite H1, H2, H3.
  destruct e as [[]|]; try discriminate; done.
Qed.

Ltac shape tac :=
  rewrite <- ?app_assoc;
  first [ eexists _, _, _; split; [reflexivity | tac]
        | eexists _, _, []; split; [rewrite app_nil_r; reflexivity | tac] ].

Section Build.
Context {World : Type} (services : Collaborators World) (heldRef : HeldRef).

Lemma handleDebugCode_quiet projectPlan filePath s :
  ∃ r w' new,
    handleDebugCode services projectPlan filePath s
    = (Some r, Build_St w' (log s ++ new) (isBuildingRef s))
    ∧ quiet new = true.
Proof.
  destruct s as [w l b]. unfold handleDebugCode. cbn [log isBuildingRef].
  destruct projectPlan as [plan|]; [|exec; shape ltac:(reflexivity)].
  destruct (findFileByPath _ _) as [fileToDebug|]; [|exec; shape ltac:(reflexivity)].
  destruct (negb _ || negb _); [exec; shape ltac:(reflexivity)|].
  exec.
  destruct (debugCode _ _ _ _).1 as [fixedCode|]; [|exec; shape ltac:(reflexivity)].
  destruct (JS.truthy fixedCode); exec; shape ltac:(reflexivity).
Qed.

Lemma handleRunTests_quiet projectPlan filePath fuel : ∀ s,
  ∃ r w' new,
    handleRunTests services projectPlan fuel filePath s
    = (r, Build_St w' (log s ++ new) (isBuildingRef s))
    ∧ quiet new = true.
Proof.
  induction fuel as [|fuel IH]; intros [w l b]; cbn [handleRunTests log isBuildingRef].
  { exec. shape ltac:(reflexivity). }
  destruct projectPlan as [plan|]; [|exec; shape ltac:(reflexivity)].
  destruct (findFileByPath _ _) as [fileToTest|]; [|exec; shape ltac:(reflexivity)].
  destruct (negb _); [exec; shape ltac:(reflexivity)|].
  exec.
  destruct (isSuccess _); exec; [shape ltac:(reflexivity)|].
  match goal with
  | |- context [handleDebugCode ?sv ?pl ?fp ?st] =>
      destruct (handleDebugCode_quiet pl fp st) as (r & w' & new & -> & Hq)
  end.
  cbn [log isBuildingRef].
  destruct r; exec.
  - match goal with
    | |- context [handleRunTests ?sv ?pl ?fu ?fp ?st] =>
        destruct (IH st) as (r & w'' & new' & -> & Hq')
    end.
    cbn [log isBuildingRef].
    shape ltac:(rewrite ?quiet_app, Hq, Hq'; reflexivity).
  - shape ltac:(rewrite ?quiet_app, Hq; reflexivity).
Qed.

Lemma handleGenerateCode_trace plan filePath s :
  ∃ r w' new,
    handleGenerateCode services heldRef (Some plan) filePath s
    = (Some r, Build_St w' (log s ++ new) (isBuildingRef s))
    ∧ gen_trace filePath (held_current heldRef (isBuildingRef s)) r new.
Proof.
  destruct s as [w l b]. cbn [log isBuildingRef].
  unfold handleGenerateCode, gen_trace, after_mark.
  destruct (findFileByPath _ _) as [fileToGenerate|];
    [|exec; shape ltac:(split; [reflexivity | left; done])].
  destruct (bool_decide _); [exec; shape ltac:(split; [reflexivity | left; done])|].
  assert (∃ flag, held_current heldRef b = flag) as [flag Hflag] by eauto.
  rewrite Hflag.
  destruct heldRef as [|current]; cbn in Hflag; subst; destruct flag; exec.
  all: destruct (generateCodeForFile _ _ _ _ _ _).1 as [c [request|]|err]; exec.
  all: try (destruct (String.eqb _ _); exec).
  all: try (shape ltac:(split; [reflexivity | right; left; done])).
  all: rewrite <- ?app_assoc; cbn; eexists _, _, _; (split; [reflexivity|]);
    (split; [reflexivity|]); right; right; (split; [done|]).
  all: first [ eexists [_; _; _; _; _], _; split; [reflexivity|]
             | eexists [_; _; _; _; _; _; _; _], _; split; [reflexivity|] ].
  all: do 4 (split; [reflexivity|]).
  all: first [ by exists "" | eexists; reflexivity ].
Qed.

Lemma after_mark_projections flag p post :
  after_mark flag p post →
  generation_attempts post = [] ∧ marked_error post = [] ∧ webhooks_emitted post = []
  ∧ test_runs post = [].
Proof.
  intros (Hq & Ht & _). destruct (quiet_projections _ Hq) as (? & ? & ?). done.
Qed.

Lemma build_loop_trace plan fuel files : ∀ w l,
  ∃ r w' new,
    build_loop services heldRef (Some plan) fuel files (Build_St w l true)
    = (r, Build_St w' (l ++ new) true)
    ∧ loop_trace files (held_current heldRef true) r new.
Proof.
  induction files as [|f rest IH]; intros w l; cbn [build_loop].
  { exec. shape ltac:(repeat split; [apply prefix_nil | left; reflexivity]). }
  exec.
  match goal with
  | |- context [handleGenerateCode ?sv ?hr ?pl ?fp ?st] =>
      destruct (handleGenerateCode_trace plan fp st)
        as (g & w1 & new1 & -> & Hweb & Hgen)
  end.
  cbn [log isBuildingRef] in *.
  destruct Hgen as [(-> & ->)|[(-> & Hatt & Herr)
                              |(-> & pre & post & -> & Hatt & Herr & Hpost)]];
    exec.
  - (* no attempt was made *)
    shape ltac:(repeat split; [apply prefix_nil | left; reflexivity]).
  - (* generated: the tests run *)
    match goal with
    | |- context [handleRunTests ?sv ?pl ?fu ?fp ?st] =>
        destruct (handleRunTests_quiet pl fp fu st)
          as (t & w2 & new2 & -> & Hq)
    end.
    cbn [log isBuildingRef].
    destruct (quiet_projections _ Hq) as (Hq1 & Hq2 & Hq3).
    destruct t as [[|]|]; exec.
    + match goal with
      | |- context [build_loop _ _ _ _ _ (Build_St ?w0 ?l0 true)] =>
          destruct (IH w0 l0) as (r & w3 & new3 & -> & Hw3 & Hp3 & Hh3)
      end.
      rewrite <- ?app_assoc. cbn. eexists _, _, _. split; [reflexivity|].
      unfold loop_trace. rewrite !app_comm_cons.
      unfold webhooks_emitted, generation_attempts, marked_error in *.
      rewrite !omap_app. cbn. rewrite Hweb, Hatt, Herr, Hq1, Hq2, Hq3, Hw3. cbn.
      split; [reflexivity|]. split; [by apply prefix_cons|].
      destruct Hh3 as [Hh3|(-> & pre & p & post & m & -> & Hpre & Hlast & Hpost & Hm)].
      * left. done.
      * right. split; [reflexivity|].
        eexists (_ :: new1 ++ new2 ++ pre), p, post, m.
        split; [cbn; by rewrite <- !app_assoc|].
        rewrite !app_comm_cons, !omap_app. cbn.
        rewrite Hatt, Herr, Hq1, Hq2, Hpre. cbn.
        split; [reflexivity|]. split; [|done].
        rewrite last_cons. unfold generation_attempts in Hlast. by rewrite Hlast.
    + rewrite <- ?app_assoc. cbn. eexists _, _, _. split; [reflexivity|].
      unfold loop_trace. rewrite !app_comm_cons.
      unfold webhooks_emitted, generation_attempts, marked_error in *.
      rewrite !omap_app. cbn. rewrite Hweb, Hatt, Herr, Hq1, Hq2, Hq3. cbn.
      split; [reflexivity|]. split; [|left; reflexivity].
      apply prefix_cons, prefix_nil.
    + rewrite <- ?app_assoc. cbn. eexists _, _, _. split; [reflexivity|].
      unfold loop_trace. rewrite !app_comm_cons.
      unfold webhooks_emitted, generation_attempts, marked_error in *.
      rewrite !omap_app. cbn. rewrite Hweb, Hatt, Herr, Hq1, Hq2, Hq3. cbn.
      split; [reflexivity|]. split; [|left; reflexivity].
      apply prefix_cons, prefix_nil.
  - (* generation failed *)
    destruct (after_mark_projections _ _ _ Hpost) as (Hp1 & Hp2 & Hp3 & _).
    rewrite <- ?app_assoc. cbn. eexists _, _, _. split; [reflexivity|].
    unfold loop_trace.
    split.
    { unfold webhooks_emitted in *. rewrite !app_comm_cons, !omap_app in *.
      cbn in *. apply app_eq_nil in Hweb as [-> _]. by rewrite Hp3. }
    split.
    { unfold generation_attempts in *. rewrite !app_comm_cons, !omap_app. cbn.
      rewrite Hatt, Hp1. cbn. apply prefix_cons, prefix_nil. }
    right. split; [reflexivity|].
    eexists (_ :: pre), (path f), post, _. split; [reflexivity|].
    unfold marked_error, generation_attempts in *. cbn. rewrite Hatt, Herr. done.
Qed.


Lemma handleBuildProject_trace plan fuel s :
  ∃ r w' b' new,
    handleBuildProject services heldRef (Some plan) fuel s
    = (r, Build_St w' (log s ++ new) b')
    ∧ build_trace plan (held_current heldRef true) r b' new.
Proof.
  destruct s as [w l b]. unfold handleBuildProject. exec.
  match goal with
  | |- context [build_loop _ _ _ _ ?fs (Build_St ?w0 ?l0 true)] =>
      destruct (build_loop_trace plan fuel fs w0 l0) as (r' & w1 & mid & -> & Hloop)
  end.
  destruct r' as [[]|]; exec; rewrite <- ?app_assoc; cbn.
  - eexists _, _, _, _. split; [reflexivity|].
    eexists _, (Some tt), mid, _. split; [reflexivity|]. split; [exact Hloop|].
    right. repeat split. eexists. split; reflexivity.
  - eexists _, _, _, _. split; [reflexivity|].
    eexists _, None, mid, []. rewrite app_nil_r. split; [reflexivity|].
    split; [exact Hloop|]. left. done.
Qed.

End Build.

Lemma marked_error_app l1 l2 : marked_error (l1 ++ l2) = marked_error l1 ++ marked_error l2.
Proof. apply omap_app. Qed.

Lemma generation_attempts_app l1 l2 :
  generation_attempts (l1 ++ l2) = generation_attempts l1 ++ generation_attempts l2.
Proof. apply omap_app. Qed.

Lemma test_runs_app l1 l2 : test_runs (l1 ++ l2) = test_runs l1 ++ test_runs l2.
Proof. apply omap_app. Qed.

Lemma webhooks_emitted_app l1 l2 :
  webhooks_emitted (l1 ++ l2) = webhooks_emitted l1 ++ webhooks_emitted l2.
Proof. apply omap_app. Qed.

(** A log with a single error mark splits around it in one way only. *)
Lemma error_mark_unique (l1' l2' l1 l2 : list Effect) p p' :
  marked_error l1' = [] → marked_error l2' = [] →
  l1 ++ Dispatch (SET_FILE_STATUS p error) :: l2
  = l1' ++ Dispatch (SET_FILE_STATUS p' error) :: l2' →
  l1 = l1' ∧ p = p' ∧ l2 = l2'.
Proof.
  revert l1. induction l1' as [|x l1' IH]; intros l1 H1 H2 Heq.
  - destruct l1 as [|y l1]; cbn in Heq.
    + by inversion Heq.
    + inversion Heq; subst. rewrite marked_error_app in H2. cbn in H2.
      by apply app_eq_nil in H2 as [_ ?].
  - destruct l1 as [|y l1]; cbn in Heq.
    + inversion Heq; subst. discriminate.
    + inversion Heq; subst.
      assert (marked_error l1' = []) as H1'.
      { change (x :: l1') with ([x] ++ l1') in H1. rewrite marked_error_app in H1.
        by apply app_eq_nil in H1 as [_ ?]. }
      destruct (IH l1 H1' H2 ltac:(assumption)) as (-> & -> & ->). done.
Qed.

(** *** The claims about the build *)

Section BuildTheorems.

Context {World : Type} (services : Collaborators World) (heldRef : HeldRef).

(** C2 (as the code has it): the work list of a build is fixed before the
    loop starts.  The files for which [handleBuildProject] starts code
    generation are, in order, an initial segment of the list computed from
    the plan the hook was called with; a file that adaptive planning adds
    while the build runs is handed to the reducer as [ADD_FILE] and is not in
    that list. *)
Theorem build_work_list_is_fixed (plan : AppPlan) (fuel : nat) (s : St World) :
  let r := handleBuildProject services heldRef (Some plan) fuel s in
  ∃ new rest,
    log r.2 = log s ++ new
    ∧ map path (filesToBuild_of plan) = generation_attempts new ++ rest.
Proof.
  cbn zeta.
  destruct (handleBuildProject_trace services heldRef plan fuel s)
    as (r & w' & b' & new & -> & m0 & r' & mid & tail & -> & Hloop & Htail).
  destruct Hloop as (_ & [rest Hrest] & _).
  exists ([Dispatch (SET_BUILD_STATUS true); Dispatch (ADD_CHAT_MESSAGE m0);
           Dispatch CLEAR_TERMINAL] ++ mid ++ tail), rest.
  split; [reflexivity|].
  rewrite !generation_attempts_app. cbn.
  assert (generation_attempts tail = []) as ->.
  { destruct Htail as [(_ & _ & -> & _)|(_ & _ & _ & m1 & -> & _)]; reflexivity. }
  by rewrite app_nil_r.
Qed.

(** C3 (as the code has it): [handleBuildProject] never consults the
    build-in-progress flag.  Without a plan it does nothing; with a plan it
    behaves the same whether the flag was set or clear when it was invoked,
    and its first act is to announce a build. *)
Theorem handleBuildProject_ignores_flag (plan : AppPlan) (fuel : nat)
        (w : World) (l : list Effect) (b : bool) :
  handleBuildProject services heldRef None fuel (Build_St w l b) = (Some tt, Build_St w l b)
  ∧ handleBuildProject services heldRef (Some plan) fuel (Build_St w l b)
    = handleBuildProject services heldRef (Some plan) fuel (Build_St w l (negb b))
  ∧ ∃ rest,
      log (handleBuildProject services heldRef (Some plan) fuel (Build_St w l b)).2
      = l ++ Dispatch (SET_BUILD_STATUS true) :: rest.
Proof.
  split; [reflexivity|]. split; [reflexivity|].
  destruct (handleBuildProject_trace services heldRef plan fuel (Build_St w l b))
    as (r & w' & b' & new & -> & m0 & r' & mid & tail & -> & _).
  cbn. eexists. reflexivity.
Qed.

(** C4 (as the code has it): a failed generation marks the file and stops
    the build, and no lifecycle event is emitted.  First, when the
    generation collaborator rejects for a file of the plan,
    [handleGenerateCode] marks exactly that file [error] and returns false,
    whatever the flag object it holds contains.  Second, whenever a build
    has marked a file [error], the build returns, that file is the last one
    generation was started for, nothing is generated or tested afterwards,
    the last two chat messages report the halt and the end of the build
    (before them comes the handler's own report of the failure, unless the
    flag it reads is set), the build-in-progress flag is cleared, and the
    whole build emitted no webhook event. *)
Theorem generation_failure_halts_build (plan : AppPlan) (fuel : nat) (s : St World) :
  (∀ filePath f e,
      findFileByPath (fileStructure plan) filePath = Some f →
      type f = file →
      let w := after_messages services
                 (if held_current heldRef (isBuildingRef s) then 0 else 2) (world s) in
      (generateCodeForFile services f plan
         (getRelevantKnowledge services filePath w).1
         (flattenFileTree (fileStructure plan))
         (getRelevantKnowledge services filePath w).2).1 = GenerationThrew e →
      let g := handleGenerateCode services heldRef (Some plan) filePath s in
      g.1 = Some false
      ∧ ∃ new, log g.2 = log s ++ new ∧ marked_error new = [filePath])
  ∧ (∀ p pre post,
      let r := handleBuildProject services heldRef (Some plan) fuel s in
      log r.2 = log s ++ pre ++ Dispatch (SET_FILE_STATUS p error) :: post →
      r.1 = Some tt
      ∧ isBuildingRef r.2 = false
      ∧ last (generation_attempts pre) = Some p
      ∧ generation_attempts post = []
      ∧ test_runs post = []
      ∧ (∃ msg,
            chat_contents post
            = snag_report (held_current heldRef true) p msg
              ++ ["Build failed on " +:+ p +:+ ". Halting process.";
                  "Full project build process finished."])
      ∧ webhooks_emitted (pre ++ Dispatch (SET_FILE_STATUS p error) :: post) = []).
Proof.
  split.
  - intros filePath f e Hfind Hfile. cbn zeta.
    destruct s as [w l b]. cbn [world isBuildingRef log].
    unfold handleGenerateCode. rewrite Hfind.
    rewrite bool_decide_eq_false_2 by (by rewrite Hfile).
    assert (∃ flag, held_current heldRef b = flag) as [flag Hflag] by eauto.
    rewrite Hflag.
    destruct heldRef as [|current]; cbn in Hflag; subst; destruct flag;
      cbn [after_messages]; intros Hthrow; exec; rewrite Hthrow; exec.
    all: split; [reflexivity|]; rewrite <- ?app_assoc; eexists; split; reflexivity.
  - intros p pre post. cbn zeta.
    destruct (handleBuildProject_trace services heldRef plan fuel s)
      as (r & w' & b' & new & -> & m0 & r' & mid & tail & -> & Hloop & Htail).
    cbn [fst snd log isBuildingRef]. intros Heq. apply app_inv_head in Heq.
    destruct Hloop as (Hweb & _ & Hmark).
    assert (marked_error tail = [] ∧ webhooks_emitted tail = []) as [Htm Htw].
    { destruct Htail as [(_ & _ & -> & _)|(_ & _ & _ & m1 & -> & _)]; done. }
    destruct Hmark
      as [Hnone|(-> & pre0 & p0 & post0 & m & -> & Hpre0 & Hlast & Hpost0 & Hm)].
    { apply (f_equal marked_error) in Heq.
      rewrite (marked_error_app pre), (marked_error_app [_; _; _]),
        (marked_error_app mid), Hnone, Htm in Heq.
      cbn in Heq. by destruct (marked_error pre). }
    destruct Htail as [(_ & [=] & _)|(-> & _ & -> & m1 & -> & Hm1)].
    destruct (after_mark_projections _ _ _ Hpost0) as (Hp1 & Hp2 & Hp3 & Hp4).
    destruct Hpost0 as (_ & _ & msg & Hchat).
    rewrite <- !app_assoc in Heq. cbn in Heq.
    change (?a :: ?b :: ?c :: pre0 ++ ?rest) with ([a; b; c] ++ pre0 ++ rest) in Heq.
    rewrite app_assoc in Heq. symmetry in Heq.
    apply error_mark_unique in Heq as (-> & -> & ->);
      [| by rewrite marked_error_app, Hpre0
       | by rewrite !marked_error_app, Hp2 ].
    split; [reflexivity|]. split; [reflexivity|].
    split.
    { rewrite generation_attempts_app, last_app, Hlast. done. }
    split; [by rewrite !generation_attempts_app, Hp1|].
    split; [by rewrite !test_runs_app, Hp4|].
    split.
    { exists msg. unfold chat_contents in *. rewrite !omap_app, Hchat. cbn.
      by rewrite Hm, Hm1, <- app_assoc. }
    unfold webhooks_emitted in *. rewrite !omap_app in *. cbn in *.
    apply app_eq_nil in Hweb as [-> _]. rewrite !omap_app. cbn.
    by rewrite Hp3.
Qed.

End BuildTheorems.


(** C2, counterexample: generation of [src/a.ts] asks for a new file; the
    build returns normally, the file was added to the tree, and generation was
    never started for it. *)
Lemma inserted_file_is_not_generated :
  let r := handleBuildProject Demo.adaptive SameRender (Some Demo.edited_plan) 3
             (Demo.start false) in
  r.1 = Some tt
  ∧ files_added (log r.2) = ["src/0-helper.ts"]
  ∧ generation_attempts (log r.2) = ["src/a.ts"]
  ∧ ¬ In "src/0-helper.ts" (generation_attempts (log r.2)).
Proof.
  cbn zeta. repeat (split; [vm_compute; reflexivity|]).
  vm_compute. intros [H|[]]. discriminate H.
Qed.

(** C3, counterexample: invoked while the build-in-progress flag is set,
    [handleBuildProject] is neither rejected nor a no-op: it walks the file
    list and starts generation. *)
Lemma build_invoked_while_building_runs :
  let s := Demo.start true in
  let r := handleBuildProject Demo.adaptive SameRender (Some Demo.edited_plan) 3 s in
  isBuildingRef s = true
  ∧ r ≠ (Some tt, s)
  ∧ generation_attempts (log r.2) = ["src/a.ts"].
Proof.
  cbn zeta. split; [reflexivity|]. split; [|vm_compute; reflexivity].
  intros H. apply (f_equal (fun x => isBuildingRef x.2)) in H.
  vm_compute in H. discriminate H.
Qed.

(** C4, witness: the build of two planned files whose generation is rejected
    at the first one, started after a re-render, so that the handler reads
    a flag object that is clear. *)
Lemma generation_failure_halts_build_witness :
  let held := EarlierRender false in
  let s := Demo.start false in
  let g := handleGenerateCode Demo.broken held (Some Demo.planned_plan) "src/a.ts" s in
  let r := handleBuildProject Demo.broken held (Some Demo.planned_plan) 3 s in
  let pre := take 12 Demo.rerendered_build_log in
  let post := drop 13 Demo.rerendered_build_log in
  (g.1 = Some false ∧ ∃ new, log g.2 = log s ++ new ∧ marked_error new = ["src/a.ts"])
  ∧ (r.1 = Some tt
     ∧ isBuildingRef r.2 = false
     ∧ last (generation_attempts pre) = Some "src/a.ts"
     ∧ generation_attempts post = []
     ∧ test_runs post = []
     ∧ (∃ msg,
           chat_contents post
           = snag_report (held_current held true) "src/a.ts" msg
             ++ ["Build failed on " +:+ "src/a.ts" +:+ ". Halting process.";
                 "Full project build process finished."])
     ∧ webhooks_emitted (pre ++ Dispatch (SET_FILE_STATUS "src/a.ts" error) :: post) = []).
Proof.
  cbn zeta. split.
  - apply (proj1 (generation_failure_halts_build Demo.broken (EarlierRender false)
                    Demo.planned_plan 3 (Demo.start false))
             "src/a.ts" (Demo.a_ts None None planned) (Some "model unavailable"));
      vm_compute; reflexivity.
  - apply (proj2 (generation_failure_halts_build Demo.broken (EarlierRender false)
                    Demo.planned_plan 3 (Demo.start false))
             "src/a.ts" (take 12 Demo.rerendered_build_log)
             (drop 13 Demo.rerendered_build_log)).
    vm_compute; reflexivity.
Defined.

(** C4, counterexample: generation of [src/a.ts] is rejected, the file is
    marked [error] and the build stops before [src/b.ts], but nothing is
    emitted to the webhook service: there is no [build.failed] event. *)
Lemma failed_build_emits_no_event :
  let r := handleBuildProject Demo.broken SameRender (Some Demo.planned_plan) 3
             (Demo.start false) in
  marked_error (log r.2) = ["src/a.ts"]
  ∧ generation_attempts (log r.2) = ["src/a.ts"]
  ∧ ¬ In Webhook.build_failed (webhooks_emitted (log r.2)).
Proof.
  cbn zeta. repeat (split; [vm_compute; reflexivity|]).
  vm_compute. intros [].
Qed.

(** ** Further properties of the orchestrator *)

Import BuildExtra.

Local Arguments findFileByPath : simpl never.

Lemma code_updates_app l1 l2 : code_updates (l1 ++ l2) = code_updates l1 ++ code_updates l2.
Proof. apply omap_app. Qed.
Lemma test_outcomes_app l1 l2 :
  test_outcomes (l1 ++ l2) = test_outcomes l1 ++ test_outcomes l2.
Proof. apply omap_app. Qed.

Ltac extends := cbn; rewrite <- ?app_assoc; cbn; eexists; reflexivity.

Section OrchestratorExtras.

Context {World : Type} (services : Collaborators World) (heldRef : HeldRef).

(** X11: the guards of the handlers.  A handler whose target is missing
    returns false and does nothing at all: [handleGenerateCode] unless the
    path is a file of the plan, [handleRunTests] unless the plan has code
    for the path, [handleDebugCode] unless the plan has code and a test
    error for it.  Past its guard each handler starts by dispatching:
    [handleGenerateCode] clears the error, [handleRunTests] sets the QA
    engineer to [Testing], [handleDebugCode] sets the debugger to
    [Debugging]. *)
Theorem handlers_do_nothing_without_target
        (projectPlan : option AppPlan) (filePath : string) (fuel : nat) (s : St World) :
  let g := handleGenerateCode services heldRef projectPlan filePath s in
  let t := handleRunTests services projectPlan (S fuel) filePath s in
  let d := handleDebugCode services projectPlan filePath s in
  (if can_generate projectPlan filePath
   then ∃ rest, log g.2 = log s ++ Dispatch (SET_ERROR None) :: rest
   else g = (Some false, s))
  ∧ (if can_test projectPlan filePath
     then ∃ rest, log t.2
                  = log s ++ Dispatch (UPDATE_AGENT_STATUS QA_Engineer Testing) :: rest
     else t = (Some false, s))
  ∧ (if can_debug projectPlan filePath
     then ∃ rest, log d.2
                  = log s ++ Dispatch (UPDATE_AGENT_STATUS Debugger Debugging) :: rest
     else d = (Some false, s)).
Proof.
  cbn zeta. unfold can_generate, can_test, can_debug, resolve.
  destruct s as [w l b].
  split; [|split].
  - unfold handleGenerateCode.
    destruct projectPlan as [plan|]; [|reflexivity].
    destruct (findFileByPath _ _) as [f|]; [|reflexivity].
    destruct (type f).
    2: { rewrite (bool_decide_eq_false_2 (directory = file)) by done.
         by rewrite (bool_decide_eq_true_2 (directory = directory)). }
    rewrite (bool_decide_eq_true_2 (file = file)) by done.
    rewrite (bool_decide_eq_false_2 (file = directory)) by done.
    destruct heldRef as [|[]]; destruct b; exec.
    all: destruct (generateCodeForFile _ _ _ _ _ _).1 as [c [request|]|err]; exec.
    all: try destruct (String.eqb _ _); exec; extends.
  - cbn [handleRunTests].
    destruct projectPlan as [plan|]; [|reflexivity].
    destruct (findFileByPath _ _) as [f|]; [|reflexivity].
    destruct (JS.truthy (code f)); cbn [negb]; [|reflexivity].
    exec.
    destruct (isSuccess _); exec; [extends|].
    match goal with
    | |- context [handleDebugCode ?sv ?pl ?fp ?st] =>
        destruct (handleDebugCode_quiet sv pl fp st) as (r & w' & new & -> & _)
    end.
    cbn [log isBuildingRef].
    destruct r; exec; [|extends].
    match goal with
    | |- context [handleRunTests ?sv ?pl ?fu ?fp ?st] =>
        destruct (handleRunTests_quiet sv pl fp fu st) as (r & w'' & new' & -> & _)
    end.
    extends.
  - unfold handleDebugCode.
    destruct projectPlan as [plan|]; [|reflexivity].
    destruct (findFileByPath _ _) as [f|]; [|reflexivity].
    destruct (JS.truthy (code f)); cbn; [|reflexivity].
    destruct (JS.truthy (testError f)); cbn; [|reflexivity].
    exec.
    destruct (debugCode _ _ _ _).1 as [fixedCode|]; [|exec; extends].
    destruct (JS.truthy fixedCode); exec; extends.
Qed.

Lemma handleDebugCode_counts projectPlan filePath s :
  ∃ r w' new,
    handleDebugCode services projectPlan filePath s
    = (Some r, Build_St w' (log s ++ new) (isBuildingRef s))
    ∧ test_runs new = [] ∧ test_outcomes new = []
    ∧ length (code_updates new) = (if r then 1 else 0).
Proof.
  destruct s as [w l b]. unfold handleDebugCode. cbn [log isBuildingRef].
  destruct projectPlan as [plan|]; [|exec; shape ltac:(done)].
  destruct (findFileByPath _ _) as [fileToDebug|]; [|exec; shape ltac:(done)].
  destruct (negb _ || negb _); [exec; shape ltac:(done)|].
  exec.
  destruct (debugCode _ _ _ _).1 as [fixedCode|]; [|exec; shape ltac:(done)].
  destruct (JS.truthy fixedCode); exec; shape ltac:(done).
Qed.

Lemma accounted_round r round new :
  length (test_runs round) = 1 → length (code_updates round) = 1 →
  accounted r new → accounted r (round ++ new).
Proof.
  intros Ht Hc.
  destruct r as [[|]|]; cbn;
    rewrite test_runs_app, code_updates_app, ?test_outcomes_app, !length_app,
      ?last_app, Ht, Hc.
  - by intros [-> ->].
  - by intros [-> ->].
  - by intros ->.
Qed.

(** X12: how test runs and fixes add up in the self-healing loop.  For a
    file the held plan has code for, what [handleRunTests] writes within
    [fuel] invocations is appended to the log and leaves the
    build-in-progress flag alone; it never starts more test runs than
    invocations.  When it returns, it has started exactly one more test run
    than code updates were written, and the last test status it wrote is
    [passing] when it returns true and [failing] when it returns false.  While
    it has not returned, every invocation so far ran the tests and was
    followed by a fix. *)
Theorem test_runs_and_fixes_add_up (plan : AppPlan) (filePath : string)
        (f : ProjectFile) (fuel : nat) (s : St World) :
  findFileByPath (fileStructure plan) filePath = Some f →
  JS.truthy (code f) = true →
  let r := handleRunTests services (Some plan) fuel filePath s in
  ∃ new,
    log r.2 = log s ++ new
    ∧ isBuildingRef r.2 = isBuildingRef s
    ∧ accounted r.1 new
    ∧ (length (test_runs new) ≤ fuel)%nat
    ∧ (r.1 = None → length (test_runs new) = fuel).
Proof.
  intros Hfind Hcode. cbn zeta. revert s.
  induction fuel as [|fuel IH]; intros [w l b]; cbn [handleRunTests].
  { exec. exists []. rewrite app_nil_r. done. }
  rewrite Hfind, Hcode. cbn [negb]. exec.
  destruct (isSuccess _); exec.
  { rewrite <- ?app_assoc. cbn. eexists. split; [reflexivity|].
    cbn. repeat split; [lia | discriminate]. }
  match goal with
  | |- context [handleDebugCode ?sv ?pl ?fp ?st] =>
      destruct (handleDebugCode_counts pl fp st)
        as (fixed & w' & new & -> & Ht & Ho & Hc)
  end.
  cbn [log isBuildingRef].
  destruct fixed; exec.
  - match goal with
    | |- context [handleRunTests ?sv ?pl ?fu ?fp ?st] =>
        destruct (IH st) as (new' & Hlog & Hflag & Hacc & Hle & Hnone)
    end.
    destruct (handleRunTests _ _ _ _ _) as [r' [w2 l2 b2]].
    cbn [fst snd log isBuildingRef] in *. subst l2 b2.
    rewrite <- ?app_assoc. cbn.
    eexists. split; [reflexivity|]. split; [reflexivity|].
    rewrite !app_comm_cons.
    split; [|rewrite test_runs_app, length_app; unfold test_runs at 1 3; cbn;
             fold (test_runs new); rewrite Ht; cbn; split; [lia | auto]].
    apply accounted_round; [| |exact Hacc].
    + unfold test_runs. cbn. fold (test_runs new). by rewrite Ht.
    + unfold code_updates. cbn. fold (code_updates new). by rewrite Hc.
  - rewrite <- ?app_assoc. cbn. eexists. split; [reflexivity|].
    split; [reflexivity|].
    rewrite !app_comm_cons.
    rewrite test_runs_app, code_updates_app, test_outcomes_app, !length_app.
    unfold test_runs at 1, code_updates at 1, test_outcomes at 1. cbn.
    fold (test_runs new) (code_updates new) (test_outcomes new).
    rewrite Ht, Ho, Hc. cbn. repeat split; [lia | discriminate].
Qed.

(** X13: the [finally] block of [handleGenerateCode].  For a file of the
    plan, whether the generation collaborator resolves or rejects, the
    handler returns, leaves the build-in-progress cell alone, sets the coder
    to [Coding] and back to [Idle] and touches no other agent, and starts
    generation once.  What it does to the loading indicator depends only on
    the content of the flag object it holds, which a running build has set
    only when handler and build come from the same render: when that
    content is clear the indicator is switched on and then off, the
    switch-off being the last effect; when it is set the indicator is not
    touched and the return to [Idle] is the last effect.  The result is
    true exactly when code was written to the file, and false exactly when
    the file was marked [error]. *)
Theorem handleGenerateCode_always_cleans_up (plan : AppPlan) (filePath : string)
        (f : ProjectFile) (s : St World) :
  findFileByPath (fileStructure plan) filePath = Some f →
  type f = file →
  let g := handleGenerateCode services heldRef (Some plan) filePath s in
  let coder := coderName_of (path f) in
  let flag := held_current heldRef (isBuildingRef s) in
  ∃ ok new,
    g.1 = Some ok
    ∧ isBuildingRef g.2 = isBuildingRef s
    ∧ log g.2 = log s ++ new
    ∧ agent_changes new = [(coder, Coding); (coder, Idle)]
    ∧ loading_changes new = (if flag then [] else [true; false])
    ∧ last new = Some (Dispatch (if flag
                                 then UPDATE_AGENT_STATUS coder Idle
                                 else SET_LOADING false None))
    ∧ generation_attempts new = [filePath]
    ∧ map fst (code_updates new) = (if ok then [filePath] else [])
    ∧ marked_error new = (if ok then [] else [filePath]).
Proof.
  intros Hfind Hfile. cbn zeta. destruct s as [w l b].
  unfold handleGenerateCode. rewrite Hfind.
  rewrite bool_decide_eq_false_2 by (by rewrite Hfile).
  destruct heldRef as [|[]]; destruct b; exec.
  all: destruct (generateCodeForFile _ _ _ _ _ _).1 as [c [request|]|err]; exec.
  all: try destruct (String.eqb _ _); exec.
  all: rewrite <- ?app_assoc; cbn; eexists _, _; split; [reflexivity|];
    split; [reflexivity|]; split; [reflexivity|]; done.
Qed.

Lemma handleRunTests_true_can_test projectPlan filePath fuel s s' :
  handleRunTests services projectPlan fuel filePath s = (Some true, s') →
  can_test projectPlan filePath = true.
Proof.
  unfold can_test, resolve. destruct fuel as [|fuel]; cbn [handleRunTests];
    [discriminate|].
  destruct projectPlan as [plan|]; [|discriminate].
  destruct (findFileByPath _ _) as [f|]; [|discriminate].
  by destruct (JS.truthy (code f)).
Qed.

Lemma singleton_split {A} (x p : A) pre post : [x] = pre ++ p :: post → post = [].
Proof. destruct pre as [|? [|? ?]]; intros [=]; done. Qed.

Lemma build_loop_stops plan fuel files : ∀ w l,
  ∃ r w' new,
    build_loop services heldRef (Some plan) fuel files (Build_St w l true)
    = (r, Build_St w' (l ++ new) true)
    ∧ ∀ pre p post,
        generation_attempts new = pre ++ p :: post →
        can_test (Some plan) p = false → post = [].
Proof.
  induction files as [|f rest IH]; intros w l; cbn [build_loop].
  { exec. shape ltac:(by intros [|? ?] ? ?). }
  exec.
  match goal with
  | |- context [handleGenerateCode ?sv ?hr ?pl ?fp ?st] =>
      destruct (handleGenerateCode_trace sv hr plan fp st)
        as (g & w1 & new1 & -> & Hweb & Hgen)
  end.
  cbn [log isBuildingRef] in *.
  destruct Hgen as [(-> & ->)|[(-> & Hatt & Herr)
                              |(-> & pre0 & post0 & -> & Hatt & Herr & Hpost0)]];
    exec.
  - shape ltac:(by intros [|? ?] ? ?).
  - match goal with
    | |- context [handleRunTests ?sv ?pl ?fu ?fp ?st] =>
        destruct (handleRunTests_quiet sv pl fp fu st)
          as (t & w2 & new2 & Ht & Hq);
        pose proof (handleRunTests_true_can_test pl fp fu st) as Hcan
    end.
    rewrite Ht in Hcan |- *. cbn [log isBuildingRef].
    destruct (quiet_projections _ Hq) as (Hq1 & _ & _).
    destruct t as [[|]|]; exec.
    + match goal with
      | |- context [build_loop _ _ _ _ _ (Build_St ?w0 ?l0 true)] =>
          destruct (IH w0 l0) as (r & w3 & new3 & -> & Hstop)
      end.
      rewrite <- ?app_assoc. cbn. eexists _, _, _. split; [reflexivity|].
      rewrite !app_comm_cons, !generation_attempts_app.
      unfold generation_attempts at 1. cbn. fold (generation_attempts new1).
      rewrite Hatt, Hq1. cbn.
      intros [|x pre] p post; cbn; intros [= <- Heq] Hno.
      * specialize (Hcan _ eq_refl). congruence.
      * eauto.
    + rewrite <- ?app_assoc. cbn. eexists _, _, _. split; [reflexivity|].
      rewrite !app_comm_cons, !generation_attempts_app.
      unfold generation_attempts at 1. cbn. fold (generation_attempts new1).
      rewrite Hatt, Hq1. cbn. intros pre p post Heq _. eapply singleton_split, Heq.
    + rewrite <- ?app_assoc. cbn. eexists _, _, _. split; [reflexivity|].
      rewrite !app_comm_cons, !generation_attempts_app.
      unfold generation_attempts at 1. cbn. fold (generation_attempts new1).
      rewrite Hatt, Hq1. cbn. intros pre p post Heq _. eapply singleton_split, Heq.
  - destruct (after_mark_projections _ _ _ Hpost0) as (Hp1 & _).
    rewrite <- ?app_assoc. cbn. eexists _, _, _. split; [reflexivity|].
    rewrite !app_comm_cons, !generation_attempts_app.
    unfold generation_attempts at 1. cbn. fold (generation_attempts pre0).
    fold (generation_attempts post0). rewrite Hatt, Hp1. cbn.
    intros pre p post Heq _. eapply singleton_split, Heq.
Qed.

(** X14: a build does not go past a file the held plan has no code for.
    [handleRunTests] reads the code of a file from the plan the hook was
    called with, which the [UPDATE_FILE_CODE] of a generation does not
    change; so a path for which generation was started and whose node in
    that plan has no code is the last path generation was started for in
    that build. *)
Theorem build_stops_at_file_without_code (plan : AppPlan) (fuel : nat) (s : St World)
        (new : list Effect) (p : string) :
  log (handleBuildProject services heldRef (Some plan) fuel s).2 = log s ++ new →
  In p (generation_attempts new) →
  can_test (Some plan) p = false →
  last (generation_attempts new) = Some p.
Proof.
  destruct s as [w l b]. unfold handleBuildProject. exec.
  match goal with
  | |- context [build_loop _ _ _ _ ?fs (Build_St ?w0 ?l0 true)] =>
      destruct (build_loop_stops plan fuel fs w0 l0) as (r' & w1 & mid & -> & Hstop)
  end.
  intros Hlog Hin Hno.
  assert (generation_attempts new = generation_attempts mid) as Heq.
  { destruct r' as [[]|]; exec; cbn in Hlog; rewrite <- ?app_assoc in Hlog;
      apply app_inv_head in Hlog; subst new; cbn;
      rewrite ?app_comm_cons, ?generation_attempts_app; cbn;
      by rewrite ?app_nil_r. }
  rewrite Heq in Hin |- *.
  apply in_split in Hin as (pre & post & Hsplit).
  rewrite (Hstop _ _ _ Hsplit Hno) in Hsplit. rewrite Hsplit. apply last_snoc.
Qed.

(** X15: the build of a freshly planned file halts at the tests.  When the
    first file to build has no code in the plan the hook holds and its
    generation succeeds, the build writes the generated code for that file,
    then finds no code to test, runs no test, reports in the chat that the
    tests failed and could not be self-healed, and returns after starting
    generation for that one file only; no file is marked [error]. *)
Theorem build_of_fresh_file_halts_at_tests (plan : AppPlan) (fuel : nat) (s : St World)
        (f f' : ProjectFile) (rest : list ProjectFile) :
  filesToBuild_of plan = f :: rest →
  findFileByPath (fileStructure plan) (path f) = Some f' →
  type f' = file →
  JS.truthy (code f') = false →
  (∀ knowledge allFiles w, ∃ c request,
      (generateCodeForFile services f' plan knowledge allFiles w).1 = Generated c request) →
  let r := handleBuildProject services heldRef (Some plan) (S fuel) s in
  r.1 = Some tt
  ∧ isBuildingRef r.2 = false
  ∧ ∃ new earlier,
      log r.2 = log s ++ new
      ∧ generation_attempts new = [path f]
      ∧ map fst (code_updates new) = [path f]
      ∧ test_runs new = []
      ∧ marked_error new = []
      ∧ chat_contents new
        = earlier ++ ["Tests failed for " +:+ path f
                      +:+ " and could not be self-healed. Halting build.";
                      "Full project build process finished."].
Proof.
  intros Hfiles Hfind Hfile Hcode Hgen. cbn zeta.
  destruct s as [w l b]. unfold handleBuildProject. rewrite Hfiles.
  exec. unfold handleGenerateCode. rewrite Hfind.
  rewrite bool_decide_eq_false_2 by (by rewrite Hfile).
  destruct heldRef as [|[]]; exec;
    match goal with
    | |- context [generateCodeForFile services f' plan ?k ?a ?w0] =>
        destruct (Hgen k a w0) as (c & request & ->)
    end;
    destruct request as [request|]; exec;
    try (destruct (String.eqb _ _); exec);
    rewrite ?Hfind, ?Hcode; exec.
  all: split; [reflexivity|]; split; [reflexivity|].
  all: rewrite <- ?app_assoc; cbn.
  all: first [ eexists _, [_]; split; [reflexivity|]; done
             | eexists _, [_; _]; split; [reflexivity|]; done
             | eexists _, [_; _; _; _]; split; [reflexivity|]; done
             | eexists _, [_; _; _; _; _]; split; [reflexivity|]; done ].
Qed.

Lemma find_by_path_unique (l : list ProjectFile) (f : ProjectFile) :
  NoDup (map path l) → In f l →
  List.find (fun g => String.eqb (path g) (path f)) l = Some f.
Proof.
  induction l as [|g l IH]; cbn; [done|].
  intros Hnd [->|Hin].
  - by rewrite String.eqb_refl.
  - apply NoDup_cons in Hnd as [Hg Hnd].
    destruct (String.eqb_spec (path g) (path f)) as [Heq|_]; [|by apply IH].
    destruct Hg. rewrite Heq. apply list_elem_of_In, in_map, Hin.
Qed.

Lemma filesToBuild_resolve plan f :
  NoDup (map path (flattenFileTree (fileStructure plan))) →
  In f (filesToBuild_of plan) →
  findFileByPath (fileStructure plan) (path f) = Some f
  ∧ type f = file ∧ status f ≠ generated.
Proof.
  intros Hnd [Hin HP]%filter_In. split.
  - by apply find_by_path_unique.
  - apply andb_prop in HP as [H1 H2].
    split; [by apply bool_decide_eq_true_1 in H1 | by apply bool_decide_eq_true_1 in H2].
Qed.

Lemma NoDup_map_filter {A B} (g : A → B) (P : A → bool) (l : list A) :
  NoDup (map g l) → NoDup (map g (List.filter P l)).
Proof.
  induction l as [|x l IH]; cbn; [done|].
  intros [Hx Hnd]%NoDup_cons. destruct (P x); cbn; [|by apply IH].
  apply NoDup_cons. split; [|by apply IH].
  intros Hin. apply Hx. apply list_elem_of_In in Hin. apply list_elem_of_In.
  apply in_map_iff in Hin as (y & <- & [Hy _]%filter_In). by apply in_map.
Qed.

(** X16: what a build generates.  When the paths of the plan are pairwise
    distinct, a build starts generation at most once per path, and only for
    paths whose node in the held plan is a file that is not yet
    [generated]: never for a directory, a generated file, or a path outside
    the plan. *)
Theorem build_generates_pending_files_once (plan : AppPlan) (fuel : nat) (s : St World) :
  NoDup (map path (flattenFileTree (fileStructure plan))) →
  let r := handleBuildProject services heldRef (Some plan) fuel s in
  ∃ new,
    log r.2 = log s ++ new
    ∧ NoDup (generation_attempts new)
    ∧ Forall (fun p => ∃ f, findFileByPath (fileStructure plan) p = Some f
                            ∧ type f = file ∧ status f ≠ generated)
             (generation_attempts new).
Proof.
  intros Hnd. cbn zeta.
  destruct (handleBuildProject_trace services heldRef plan fuel s)
    as (r & w' & b' & new & -> & m0 & r' & mid & tail & -> & Hloop & Htail).
  destruct Hloop as (_ & [rest Hrest] & _).
  eexists. split; [reflexivity|].
  rewrite !generation_attempts_app. cbn.
  assert (generation_attempts tail = []) as ->.
  { destruct Htail as [(_ & _ & -> & _)|(_ & _ & _ & m1 & -> & _)]; reflexivity. }
  rewrite app_nil_r.
  pose proof (NoDup_map_filter path
                (fun f => bool_decide (type f = file) && bool_decide (status f ≠ generated))
                _ Hnd) as Hnd'.
  fold (filesToBuild_of plan) in Hnd'. rewrite Hrest in Hnd'.
  apply NoDup_app in Hnd' as (Hnd' & _ & _). split; [exact Hnd'|].
  apply Forall_forall. intros p Hp.
  assert (In p (map path (filesToBuild_of plan))) as Hin.
  { rewrite Hrest. apply in_or_app. left. by apply list_elem_of_In. }
  apply in_map_iff in Hin as (f & <- & Hf).
  exists f. by apply filesToBuild_resolve.
Qed.

Lemma build_loop_completes plan fuel files :
  Forall (fun f => findFileByPath (fileStructure plan) (path f) = Some f
                   ∧ type f = file ∧ JS.truthy (code f) = true) files →
  (∀ f knowledge allFiles w, ∃ c request,
      (generateCodeForFile services f plan knowledge allFiles w).1 = Generated c request) →
  (∀ c w, isSuccess (generateTestError services c w).1 = true) →
  ∀ w l, ∃ w' new,
    build_loop services heldRef (Some plan) (S fuel) files (Build_St w l true)
    = (Some tt, Build_St w' (l ++ new) true)
    ∧ generation_attempts new = map path files
    ∧ map fst (code_updates new) = map path files
    ∧ test_outcomes new = repeat passing (length files)
    ∧ marked_error new = [].
Proof.
  intros Hfiles Hgen Htest.
  induction Hfiles as [|f rest (Hfind & Hfile & Hcode) _ IH]; intros w l.
  { exists w, []. rewrite app_nil_r. done. }
  cbn [build_loop]. exec. unfold handleGenerateCode. rewrite Hfind.
  rewrite bool_decide_eq_false_2 by (by rewrite Hfile).
  destruct heldRef as [|[]]; exec;
    match goal with
    | |- context [generateCodeForFile services f plan ?k ?a ?w0] =>
        destruct (Hgen f k a w0) as (c & request & ->)
    end;
    destruct request as [request|]; exec;
    try (destruct (String.eqb _ _); exec);
    rewrite ?Hfind, ?Hcode; exec; rewrite Htest; exec.
  all: match goal with
       | |- context [build_loop _ _ _ _ _ (Build_St ?w0 ?l0 true)] =>
           destruct (IH w0 l0) as (w3 & new3 & -> & H1 & H2 & H3 & H4)
       end.
  all: rewrite <- ?app_assoc; cbn; eexists _, _; split; [reflexivity|].
  all: unfold generation_attempts, code_updates, test_outcomes, marked_error in *.
  all: cbn; rewrite H1, H2, H3, H4; done.
Qed.

(** X17: a build that meets no failure works through its whole list.  When
    the paths of the plan are pairwise distinct, every file to build has
    code in the held plan, generation never rejects and every test run
    succeeds, the build returns and clears the build-in-progress flag
    after generating, in order, every file of the list computed before the
    loop: code is written once per file, each file is tested once and
    passes, and no file is marked [error]. *)
Theorem unobstructed_build_covers_every_file (plan : AppPlan) (fuel : nat) (s : St World) :
  NoDup (map path (flattenFileTree (fileStructure plan))) →
  Forall (fun f => JS.truthy (code f) = true) (filesToBuild_of plan) →
  (∀ f knowledge allFiles w, ∃ c request,
      (generateCodeForFile services f plan knowledge allFiles w).1 = Generated c request) →
  (∀ c w, isSuccess (generateTestError services c w).1 = true) →
  let r := handleBuildProject services heldRef (Some plan) (S fuel) s in
  r.1 = Some tt
  ∧ isBuildingRef r.2 = false
  ∧ ∃ new,
      log r.2 = log s ++ new
      ∧ generation_attempts new = map path (filesToBuild_of plan)
      ∧ map fst (code_updates new) = map path (filesToBuild_of plan)
      ∧ test_outcomes new = repeat passing (length (filesToBuild_of plan))
      ∧ marked_error new = [].
Proof.
  intros Hnd Hcode Hgen Htest. cbn zeta.
  destruct s as [w l b]. unfold handleBuildProject. exec.
  match goal with
  | |- context [build_loop _ _ _ _ ?fs (Build_St ?w0 ?l0 true)] =>
      destruct (build_loop_completes plan fuel fs) with (w := w0) (l := l0)
        as (w1 & mid & -> & H1 & H2 & H3 & H4); [|exact Hgen|exact Htest|]
  end.
  { apply Forall_forall. intros f Hf.
    destruct (filesToBuild_resolve plan f Hnd) as (? & ? & _);
      [by apply list_elem_of_In|].
    rewrite Forall_forall in Hcode. auto. }
  exec. split; [reflexivity|]. split; [reflexivity|].
  rewrite <- ?app_assoc. cbn. eexists. split; [reflexivity|].
  unfold generation_attempts, code_updates, test_outcomes, marked_error in *.
  cbn. rewrite !omap_app, map_app, H1, H2, H3, H4. cbn.
  by rewrite !app_nil_r.
Qed.

End OrchestratorExtras.

(** X12, witness: the tests fail once and pass after one fix. *)
Lemma test_runs_and_fixes_add_up_witness :
  let s := Demo.start false in
  let r := handleRunTests Demo.flaky (Some Demo.failing_plan) 5 "src/a.ts" s in
  ∃ new,
    log r.2 = log s ++ new
    ∧ isBuildingRef r.2 = isBuildingRef s
    ∧ accounted r.1 new
    ∧ (length (test_runs new) ≤ 5)%nat
    ∧ (r.1 = None → length (test_runs new) = 5).
Proof.
  apply (test_runs_and_fixes_add_up Demo.flaky Demo.failing_plan "src/a.ts"
           (Demo.a_ts (Some "code") (Some "assertion failed") modified) 5
           (Demo.start false)); reflexivity.
Defined.

(** X13, witness: generation of a planned file is rejected while a build
    started after a re-render is running: the cell of the build is set, the
    object the handler holds is clear. *)
Lemma handleGenerateCode_always_cleans_up_witness :
  let held := EarlierRender false in
  let s := Demo.start true in
  let f := Demo.a_ts None None planned in
  let g := handleGenerateCode Demo.broken held (Some Demo.planned_plan) "src/a.ts" s in
  let coder := coderName_of (path f) in
  let flag := held_current held (isBuildingRef s) in
  ∃ ok new,
    g.1 = Some ok
    ∧ isBuildingRef g.2 = isBuildingRef s
    ∧ log g.2 = log s ++ new
    ∧ agent_changes new = [(coder, Coding); (coder, Idle)]
    ∧ loading_changes new = (if flag then [] else [true; false])
    ∧ last new = Some (Dispatch (if flag
                                 then UPDATE_AGENT_STATUS coder Idle
                                 else SET_LOADING false None))
    ∧ generation_attempts new = ["src/a.ts"]
    ∧ map fst (code_updates new) = (if ok then ["src/a.ts"] else [])
    ∧ marked_error new = (if ok then [] else ["src/a.ts"]).
Proof.
  apply (handleGenerateCode_always_cleans_up Demo.broken (EarlierRender false)
           Demo.planned_plan "src/a.ts" (Demo.a_ts None None planned)
           (Demo.start true)); reflexivity.
Defined.

(** X14, witness: of two planned files without code, generation is started
    for the first one only. *)
Lemma build_stops_at_file_without_code_witness :
  let r := handleBuildProject Demo.adaptive SameRender (Some Demo.planned_plan) 3
             (Demo.start false) in
  last (generation_attempts (log r.2)) = Some "src/a.ts".
Proof.
  apply (build_stops_at_file_without_code Demo.adaptive SameRender Demo.planned_plan 3
           (Demo.start false)).
  - reflexivity.
  - vm_compute. left. reflexivity.
  - vm_compute. reflexivity.
Defined.

(** X15, witness: the build of two planned files with a generator that
    always answers. *)
Lemma build_of_fresh_file_halts_at_tests_witness :
  let s := Demo.start false in
  let f := Demo.a_ts None None planned in
  let r := handleBuildProject Demo.adaptive SameRender (Some Demo.planned_plan) 3 s in
  r.1 = Some tt
  ∧ isBuildingRef r.2 = false
  ∧ ∃ new earlier,
      log r.2 = log s ++ new
      ∧ generation_attempts new = [path f]
      ∧ map fst (code_updates new) = [path f]
      ∧ test_runs new = []
      ∧ marked_error new = []
      ∧ chat_contents new
        = earlier ++ ["Tests failed for " +:+ path f
                      +:+ " and could not be self-healed. Halting build.";
                      "Full project build process finished."].
Proof.
  apply (build_of_fresh_file_halts_at_tests Demo.adaptive SameRender Demo.planned_plan 2
           (Demo.start false) (Demo.a_ts None None planned)
           (Demo.a_ts None None planned) [Demo.b_ts]).
  - vm_compute. reflexivity.
  - vm_compute. reflexivity.
  - reflexivity.
  - reflexivity.
  - intros. eexists _, _. reflexivity.
Defined.

(** X16, witness: the plan of two planned files. *)
Lemma build_generates_pending_files_once_witness :
  let s := Demo.start false in
  let r := handleBuildProject Demo.adaptive SameRender (Some Demo.planned_plan) 3 s in
  ∃ new,
    log r.2 = log s ++ new
    ∧ NoDup (generation_attempts new)
    ∧ Forall (fun p => ∃ f, findFileByPath (fileStructure Demo.planned_plan) p = Some f
                            ∧ type f = file ∧ status f ≠ generated)
             (generation_attempts new).
Proof.
  apply (build_generates_pending_files_once Demo.adaptive SameRender Demo.planned_plan 3
           (Demo.start false)).
  apply (bool_decide_unpack _). vm_compute. exact I.
Defined.

(** X17, witness: the build of an edited file whose tests pass. *)
Lemma unobstructed_build_covers_every_file_witness :
  let s := Demo.start false in
  let r := handleBuildProject Demo.adaptive SameRender (Some Demo.edited_plan) 3 s in
  r.1 = Some tt
  ∧ isBuildingRef r.2 = false
  ∧ ∃ new,
      log r.2 = log s ++ new
      ∧ generation_attempts new = map path (filesToBuild_of Demo.edited_plan)
      ∧ map fst (code_updates new) = map path (filesToBuild_of Demo.edited_plan)
      ∧ test_outcomes new = repeat passing (length (filesToBuild_of Demo.edited_plan))
      ∧ marked_error new = [].
Proof.
  apply (unobstructed_build_covers_every_file Demo.adaptive SameRender Demo.edited_plan 2
           (Demo.start false)).
  - apply (bool_decide_unpack _). vm_compute. exact I.
  - vm_compute. repeat constructor.
  - intros. eexists _, _. reflexivity.
  - intros. reflexivity.
Defined.

(** ** Properties of the webhook service *)

Import Webhook BusTrace.

Lemma Map_get_set k v m : Map_get k (Map_set k v m) = Some v.
Proof.
  induction m as [|[k' v'] m IH]; cbn.
  - by rewrite String.eqb_refl.
  - destruct (String.eqb k k') eqn:E; cbn; rewrite ?String.eqb_refl, ?E; done.
Qed.

Lemma byte_toString16 b : JS.padStart0 2 (toString16 (Byte.to_N b)) = hex_pair b.
Proof. destruct b; vm_compute; reflexivity. Qed.

Lemma append_empty_r (s : string) : s +:+ "" = s.
Proof.
  induction s as [|c s IH]; [done|].
  change (String c (s +:+ "") = String c s). by f_equal.
Qed.

Lemma concat_empty_cons (x : string) xs :
  String.concat "" (x :: xs) = x +:+ String.concat "" xs.
Proof. destruct xs; [symmetry; apply append_empty_r | reflexivity]. Qed.

Lemma join_hex bs :
  String.concat "" (map (fun b => JS.padStart0 2 (toString16 (Byte.to_N b))) bs)
  = hex_encode bs.
Proof.
  induction bs as [|b bs IH]; [done|].
  rewrite map_cons, concat_empty_cons, IH, byte_toString16. done.
Qed.

Lemma encode_empty (s : string) : TextEncoder_encode s = [] ↔ s = "".
Proof. destruct s; split; intros H; try done; discriminate H. Qed.

Section Signatures.
Variable hmac_sha256 : list byte -> list byte -> list byte.

Lemma generateSignature_empty payload :
  generateSignature hmac_sha256 payload "" = None.
Proof. reflexivity. Qed.

Lemma generateSignature_resolves payload secret :
  secret ≠ "" →
  generateSignature hmac_sha256 payload secret
  = Some ("sha256=" +:+ hex_encode (hmac_sha256 (TextEncoder_encode secret)
                                                (TextEncoder_encode payload))).
Proof.
  intros Hne. unfold generateSignature.
  destruct (TextEncoder_encode secret) eqn:E; [by apply encode_empty in E|].
  by rewrite <- E, join_hex.
Qed.

(** Inside [if (subscription.secret)] the signature is always there. *)
Lemma signature_of_truthy_secret payload sec :
  JS.truthy (Some sec) = true →
  generateSignature hmac_sha256 payload sec
  = Some ("sha256=" +:+ hex_encode (hmac_sha256 (TextEncoder_encode sec)
                                                (TextEncoder_encode payload))).
Proof.
  unfold JS.truthy. destruct (String.eqb_spec sec ""); [done|].
  intros _. by apply generateSignature_resolves.
Qed.

End Signatures.

Ltac proj :=
  cbn [trace service drains world eventQueue isProcessing subscriptions
       set_isProcessing set_eventQueue set_subscriptions].

Section WebhookTheorems.
Context {World : Type}.
Variable randomUUID : World -> string * World.
Variable Date_now_toISOString : World -> string * World.
Variable hmac_sha256 : list byte -> list byte -> list byte.
Variable JSON_stringify : WebhookEvent -> string.

Local Abbreviation drain_next' := (drain_next hmac_sha256 JSON_stringify).
Local Abbreviation step' :=
  (step randomUUID Date_now_toISOString hmac_sha256 JSON_stringify).
Local Abbreviation run' :=
  (run randomUUID Date_now_toISOString hmac_sha256 JSON_stringify).
Local Abbreviation inv := (@bus_inv World).
Local Abbreviation same := (@same_but_outcomes World).
Local Abbreviation emit' :=
  (emit randomUUID Date_now_toISOString hmac_sha256 JSON_stringify).

Lemma emitted_app tr tr' : emitted (tr ++ tr') = emitted tr ++ emitted tr'.
Proof. apply omap_app. Qed.
Lemma shifted_app tr tr' : shifted (tr ++ tr') = shifted tr ++ shifted tr'.
Proof. apply omap_app. Qed.
Lemma fetched_app tr tr' : fetched (tr ++ tr') = fetched tr ++ fetched tr'.
Proof. apply omap_app. Qed.
Lemma outstanding_app tr tr' :
  outstanding (tr ++ tr') = fold_left count_outstanding tr' (outstanding tr).
Proof. apply fold_left_app. Qed.

Section Fetches.
Variable event : WebhookEvent.
Let fetch_of (sub : WebhookSubscription) : Obs :=
  ObsFetch event sub (deliverEvent_request hmac_sha256 JSON_stringify event sub).

Lemma emitted_fetches subs : emitted (map fetch_of subs) = [].
Proof. induction subs; done. Qed.
Lemma shifted_fetches subs : shifted (map fetch_of subs) = [].
Proof. induction subs; done. Qed.
Lemma fetched_fetches subs : fetched (map fetch_of subs) = map (pair event) subs.
Proof. induction subs as [|x subs IH]; [done|]. cbn. by f_equal. Qed.
Lemma outstanding_fetches subs n :
  fold_left count_outstanding (map fetch_of subs) (Some n) = Some (n + length subs).
Proof.
  revert n. induction subs as [|x subs IH]; intros n; cbn.
  - f_equal; lia.
  - rewrite IH. f_equal; lia.
Qed.
End Fetches.

Lemma emitted_console out : emitted (map ObsConsole out) = [].
Proof. induction out; done. Qed.
Lemma shifted_console out : shifted (map ObsConsole out) = [].
Proof. induction out; done. Qed.
Lemma fetched_console out : fetched (map ObsConsole out) = [].
Proof. induction out; done. Qed.
Lemma outstanding_console out acc :
  fold_left count_outstanding (map ObsConsole out) acc = acc.
Proof. induction out as [|x out IH]; [done|]. cbn. destruct acc; apply IH. Qed.

Lemma settle_observations e sub o out :
  let obs := ObsSettle e sub o :: map ObsConsole out in
  emitted obs = [] ∧ shifted obs = [] ∧ fetched obs = []
  ∧ ∀ n, fold_left count_outstanding obs (Some n) = Some (pred n).
Proof.
  cbn zeta. repeat split.
  - apply emitted_console.
  - apply shifted_console.
  - apply fetched_console.
  - intros n. cbn. apply outstanding_console.
Qed.

Lemma relevant_match event s :
  forallb matches (map (pair event) (relevant event s)) = true.
Proof.
  unfold relevant. induction (Map_values (subscriptions s)) as [|x l IH]; [done|].
  cbn. destruct (active x && _) eqn:E; [|done]. cbn. unfold matches at 1. cbn.
  by rewrite E.
Qed.

Lemma drain_next_inv s w tr :
  shifted tr ++ eventQueue s = emitted tr →
  forallb matches (fetched tr) = true →
  outstanding tr = Some 0 →
  isProcessing s = true →
  inv (drain_next' 0 {| service := s; world := w; drains := [[]]; trace := tr |}).
Proof.
  intros Hfifo Hmatch Hout Hproc. unfold drain_next. cbn [service eventQueue].
  destruct (eventQueue s) as [|event rest] eqn:Hq; cbn.
  - split; proj.
    + by rewrite shifted_app, emitted_app, <- Hfifo, Hq, !app_nil_r.
    + by rewrite fetched_app, app_nil_r.
    + by rewrite outstanding_app, Hout.
    + by left.
  - split; proj.
    + rewrite shifted_app, emitted_app. cbn.
      rewrite shifted_fetches, emitted_fetches, <- Hfifo, app_nil_r.
      by rewrite <- app_assoc.
    + rewrite fetched_app. cbn. rewrite fetched_fetches, forallb_app, Hmatch.
      apply relevant_match.
    + rewrite outstanding_app, Hout. cbn. rewrite outstanding_fetches.
      by rewrite app_nil_r, length_map.
    + right. eexists. split; [reflexivity | exact Hproc].
Qed.

Lemma idle_inv subs w : inv (idle_bus subs w).
Proof. split; cbn; try done. by left. Qed.

Lemma step_inv b l : inv b → inv (step' b l).
Proof.
  intros [Hfifo Hmatch Hout Hsingle]. destruct b as [s w ds tr].
  cbn [trace service drains world] in *.
  destruct l as [subscription|subscriptionId|eventType data source|i k o|i];
    cbn [step trace service drains world].
  - unfold subscribe. destruct (randomUUID w) as [uuid w']. by split.
  - unfold unsubscribe. destruct (Map_delete _ _). by split.
  - unfold emit. proj. destruct (randomUUID w) as [uuid w1].
    destruct (Date_now_toISOString w1) as [now w2].
    destruct Hsingle as [(-> & Hproc)|(pending & -> & Hproc)]; rewrite Hproc;
      cbn [negb].
    + unfold processQueue. proj. cbn [length app]. apply drain_next_inv; proj.
      * rewrite !shifted_app, !emitted_app. cbn.
        by rewrite !app_nil_r, app_assoc, Hfifo.
      * by rewrite !fetched_app, !app_nil_r.
      * by rewrite !outstanding_app, Hout.
      * done.
    + split; proj.
      * rewrite !shifted_app, !emitted_app. cbn. by rewrite !app_nil_r, app_assoc, Hfifo.
      * by rewrite fetched_app, app_nil_r.
      * by rewrite outstanding_app, Hout.
      * right. by eexists.
  - unfold settle. proj.
    destruct (ds !! i) as [pending|] eqn:Hi; [|by split].
    destruct (pending !! k) as [d|] eqn:Hk; [|by split].
    destruct Hsingle as [(-> & Hproc)|(pending' & -> & Hproc)]; [done|].
    destruct i as [|i]; [|done]. cbn in Hi. injection Hi as ->.
    match goal with
    | |- context [ObsSettle ?e ?sub ?o :: map ObsConsole ?out] =>
        destruct (settle_observations e sub o out) as (He & Hs & Hf & Ho)
    end.
    split; proj.
    + by rewrite shifted_app, emitted_app, He, Hs, !app_nil_r.
    + by rewrite fetched_app, Hf, app_nil_r.
    + rewrite outstanding_app, Hout, Ho. cbn.
      rewrite !app_nil_r. f_equal. rewrite length_delete by by eexists. lia.
    + right. by eexists.
  - unfold resume. proj.
    destruct (ds !! i) as [[|d pending]|] eqn:Hi; try by split.
    destruct Hsingle as [(-> & Hproc)|(pending' & -> & Hproc)]; [done|].
    destruct i as [|i]; [|done]. cbn in Hi. injection Hi as ->.
    apply drain_next_inv; done.
Qed.

Lemma run_inv ls : ∀ b, inv b → inv (run' ls b).
Proof.
  induction ls as [|l ls IH]; intros b Hb; [done|].
  cbn. apply IH, step_inv, Hb.
Qed.

(** *** Outcomes of deliveries do not steer the bus *)

Lemma outcome_free_app tr tr' :
  outcome_free (tr ++ tr') = outcome_free tr ++ outcome_free tr'.
Proof. apply omap_app. Qed.

Lemma outcome_free_console out : outcome_free (map ObsConsole out) = [].
Proof. induction out; done. Qed.

Lemma fetched_outcome_free tr : fetched (outcome_free tr) = fetched tr.
Proof.
  unfold fetched, outcome_free. induction tr as [|o tr IH]; [done|].
  destruct o; cbn; by rewrite ?IH.
Qed.

Lemma drain_next_same i b b' :
  same b b' →
  same (drain_next' i b) (drain_next' i b').
Proof.
  destruct b as [s w ds tr], b' as [s' w' ds' tr'].
  intros (Hs & Hw & Hd & Ht). cbn [trace service drains world] in Hs, Hw, Hd, Ht.
  subst s' w' ds'.
  unfold drain_next. proj. destruct (eventQueue s) as [|event rest];
    (repeat split; proj; try done; by rewrite !outcome_free_app, Ht).
Qed.

Lemma step_same b b' l :
  same b b' →
  same (step' b l) (step' b' (succeed l)).
Proof.
  destruct b as [s w ds tr], b' as [s' w' ds' tr'].
  intros (Hs & Hw & Hd & Ht). cbn [trace service drains world] in Hs, Hw, Hd, Ht.
  subst s' w' ds'.
  destruct l as [subscription|subscriptionId|eventType data source|i k o|i];
    cbn [step succeed trace service drains world].
  - unfold subscribe. destruct (randomUUID w) as [uuid w']. by repeat split.
  - by repeat split.
  - unfold emit. proj. destruct (randomUUID w) as [uuid w1].
    destruct (Date_now_toISOString w1) as [now w2].
    destruct (negb (isProcessing s)).
    + unfold processQueue. proj. apply drain_next_same.
      repeat split; proj; try done. by rewrite !outcome_free_app, Ht.
    + repeat split; proj; try done. by rewrite !outcome_free_app, Ht.
  - unfold settle. proj.
    destruct (ds !! i) as [pending|]; [|by repeat split].
    destruct (pending !! k) as [d|]; [|by repeat split].
    repeat split; proj; try done.
    rewrite !outcome_free_app, Ht. cbn. by rewrite !outcome_free_console.
  - unfold resume. proj.
    destruct (ds !! i) as [[|d pending]|]; try by repeat split.
    apply drain_next_same. by repeat split.
Qed.

Lemma run_same ls : ∀ b b',
  same b b' →
  same (run' ls b) (run' (map succeed ls) b').
Proof.
  induction ls as [|l ls IH]; intros b b' H; [done|].
  cbn. apply IH, step_same, H.
Qed.

Lemma deliverEvent_settle_returns sub o :
  (deliverEvent_settle sub o).1 = Returned tt.
Proof. by destruct o as [[] ? ?|?]. Qed.

(** *** The claims about the event bus *)

(** C5 (the code at the failing input): an event emitted on a bus at rest is
    taken by the drain at once, so when [emit] is done the event has been
    emitted and taken, the queue is empty again, and [getEventHistory]
    returns nothing for any limit. *)
Theorem dispatched_event_is_not_in_history
        (subs : SubscriptionMap) (w : World) (eventType : WebhookEventType)
        (data : string) (source : option string) (limit : Z) :
  let b := emit' eventType data source (idle_bus subs w) in
  length (emitted (trace b)) = 1
  ∧ shifted (trace b) = emitted (trace b)
  ∧ eventQueue (service b) = []
  ∧ getEventHistory limit (service b) = [].
Proof.
  cbn zeta. unfold emit, idle_bus. proj.
  destruct (randomUUID w) as [uuid w1]. destruct (Date_now_toISOString w1) as [now w2].
  cbn [negb app]. unfold processQueue, drain_next, getEventHistory. proj.
  match goal with
  | |- context [ObsShift ?e :: map ?f ?l] =>
      change (ObsShift e :: map f l) with ([ObsShift e] ++ map f l)
  end.
  rewrite !shifted_app, !emitted_app, shifted_fetches, emitted_fetches.
  by destruct limit.
Qed.


(** C7: a failed delivery is isolated.  Whatever [fetch] yields,
    [deliverEvent] returns normally, having written one [console.error]
    line unless the response was ok; and a run of the bus differs from the
    same run with every delivery succeeding only in the outcomes its trace
    records: the service, the world, the pending deliveries and the
    requests made are the same, so a failure causes no retry, skips no
    subscriber and holds back no later event. *)
Theorem delivery_failure_is_isolated
        (b0 : Bus World) (ls : list Label) (sub : WebhookSubscription) (o : FetchOutcome) :
  (deliverEvent_settle sub o).1 = Returned tt
  ∧ length (deliverEvent_settle sub o).2
    = match o with Responded true _ _ => 0 | _ => 1 end
  ∧ let b := run' ls b0 in
    let b' := run' (map succeed ls) b0 in
    service b = service b'
    ∧ world b = world b'
    ∧ drains b = drains b'
    ∧ outcome_free (trace b) = outcome_free (trace b')
    ∧ fetched (trace b) = fetched (trace b').
Proof.
  split; [apply deliverEvent_settle_returns|].
  split; [by destruct o as [[] ? ?|?]|].
  cbn zeta.
  destruct (run_same ls b0 b0) as (Hs & Hw & Hd & Ht); [done|].
  repeat (split; [assumption|]).
  by rewrite <- (fetched_outcome_free (trace (run' ls b0))), Ht, fetched_outcome_free.
Qed.

(** C8 (as the code has it): the round trip holds for every non-empty
    secret, and only there.  For a non-empty secret the generated signature
    is [sha256=] followed by the hex encoding of the HMAC-SHA-256 of the
    payload bytes under the secret bytes, and [validateSignature] accepts
    it for the same payload and secret.  For the empty secret [importKey]
    refuses the key: [generateSignature] rejects, and so does
    [validateSignature], whatever signature it is given. *)
Theorem signature_round_trip (payload secret : string) :
  if String.eqb secret ""
  then generateSignature hmac_sha256 payload secret = None
       ∧ ∀ signature, validateSignature hmac_sha256 payload signature secret = None
  else ∃ signature,
         generateSignature hmac_sha256 payload secret = Some signature
         ∧ signature
           = "sha256=" +:+ hex_encode (hmac_sha256 (TextEncoder_encode secret)
                                                   (TextEncoder_encode payload))
         ∧ validateSignature hmac_sha256 payload signature secret = Some true.
Proof.
  destruct (String.eqb_spec secret "") as [->|Hne].
  - split; [reflexivity|]. intros signature. reflexivity.
  - eexists. split; [by apply generateSignature_resolves|]. split; [reflexivity|].
    unfold validateSignature. rewrite generateSignature_resolves by done.
    by rewrite String.eqb_refl.
Qed.

(** C10: whatever the caller passes, its [active] flag included,
    [subscribe] stores under the id it returns a subscription with the
    caller's url, events, secret and headers and [active] set to true, and
    the returned id maps to exactly that stored subscription; the queue and
    the processing flag are untouched.  The [id] field of the stored
    subscription is the returned id, unless the caller's object carried an
    [id] of its own, which the spread copies over it. *)
Theorem subscribe_forces_active (subscription : SubscriptionInit) (w : World)
        (s : WebhookService) :
  let r := subscribe randomUUID subscription w s in
  let id := r.1.1 in
  Map_get id (subscriptions r.2)
  = Some {| sub_id := default id (init_id subscription);
            url := init_url subscription;
            events := init_events subscription;
            active := true;
            secret := init_secret subscription;
            headers := init_headers subscription |}
  ∧ eventQueue r.2 = eventQueue s
  ∧ isProcessing r.2 = isProcessing s.
Proof.
  cbn zeta. unfold subscribe. destruct (randomUUID w) as [id w'] eqn:E. cbn.
  by rewrite Map_get_set.
Qed.

Lemma lookup_spread (h base : gmap string string) (name : string) :
  (h ∪ base) !! name
  = match h !! name with Some v => Some v | None => base !! name end.
Proof. rewrite lookup_union. by destruct (h !! name), (base !! name). Qed.

(** C9 (as the code has it): every request carries the four required header
    names, and static headers never remove one; but the static headers are
    spread after the required entries, so a static header with the name of a
    required one replaces its event-derived value.  In general the value
    sent under a name is the signature for [X-Webhook-Signature] when a
    secret is configured, else the subscriber's static header of that name
    when there is one, else the required entry. *)
Theorem required_headers_present_but_replaceable
        (event : WebhookEvent) (subscription : WebhookSubscription) :
  let h := deliverEvent_headers hmac_sha256 JSON_stringify event subscription in
  h !! "Content-Type" = sent subscription "Content-Type" "application/json"
  ∧ h !! "X-Webhook-Event" = sent subscription "X-Webhook-Event" (type event)
  ∧ h !! "X-Webhook-ID" = sent subscription "X-Webhook-ID" (id event)
  ∧ h !! "X-Webhook-Timestamp"
    = sent subscription "X-Webhook-Timestamp" (timestamp event)
  ∧ ∀ name,
      h !! name
      = if JS.truthy (secret subscription) && String.eqb name "X-Webhook-Signature"
        then Some ("sha256="
                   +:+ hex_encode
                         (hmac_sha256
                            (TextEncoder_encode (default "" (secret subscription)))
                            (TextEncoder_encode (JSON_stringify event))))
        else match headers subscription ≫= (fun h' => h' !! name) with
             | Some v => Some v
             | None => required_headers event !! name
             end.
Proof.
  cbn zeta. unfold deliverEvent_headers, sent, object_spread, required_headers.
  split_and!.
  1-4: destruct (secret subscription) as [sec|];
    [destruct (JS.truthy (Some sec));
     [destruct (generateSignature hmac_sha256 (JSON_stringify event) sec)|]|];
    destruct (headers subscription) as [h|]; cbn;
    rewrite ?lookup_insert_ne by done;
    rewrite ?lookup_union;
    try (destruct (h !! _) eqn:E; rewrite ?E; cbn);
    by simplify_map_eq.
  intros name.
  destruct (secret subscription) as [sec|]; cbn [default].
  - destruct (JS.truthy (Some sec)) eqn:Htruthy; cbn [andb].
    + rewrite (signature_of_truthy_secret hmac_sha256 _ _ Htruthy).
      destruct (String.eqb_spec name "X-Webhook-Signature") as [->|Hne].
      * by rewrite lookup_insert_eq.
      * rewrite lookup_insert_ne by done.
        destruct (headers subscription) as [h|]; cbn; [|done].
        apply lookup_spread.
    + destruct (headers subscription) as [h|]; cbn; [|done].
      apply lookup_spread.
  - cbn. destruct (headers subscription) as [h|]; cbn; [|done].
    apply lookup_spread.
Qed.

End WebhookTheorems.

(** C9, counterexample: a subscriber whose static headers contain
    [X-Webhook-Event] has that value sent in place of the type of the
    event. *)
Lemma static_header_replaces_event_type :
  let h := deliverEvent_headers BusDemo.stub_hmac BusDemo.stub_json
             BusDemo.build_failed_event BusDemo.spoofing in
  h !! "X-Webhook-Event" = Some "test.passed"
  ∧ h !! "X-Webhook-Event" ≠ Some (type BusDemo.build_failed_event).
Proof.
  cbn zeta.
  assert (deliverEvent_headers BusDemo.stub_hmac BusDemo.stub_json
            BusDemo.build_failed_event BusDemo.spoofing !! "X-Webhook-Event"
          = Some "test.passed") as ->.
  { unfold deliverEvent_headers, BusDemo.spoofing, object_spread. cbn.
    rewrite lookup_union, lookup_singleton_eq. reflexivity. }
  split; [reflexivity | discriminate].
Qed.

(** C8, counterexample: for the empty secret no signature is generated and
    validation does not return true: both calls reject. *)
Lemma empty_secret_is_refused :
  generateSignature BusDemo.stub_hmac "{}" "" = None
  ∧ validateSignature BusDemo.stub_hmac "{}" "sha256=" "" ≠ Some true.
Proof. split; [reflexivity | discriminate]. Qed.

(** An argument of [subscribe] that carries an [id] is stored under the
    fresh id and keeps its own. *)
Example carried_id_is_kept :
  let subscription :=
    {| init_id := Some "mine"; init_url := "https://hooks.test/in";
       init_events := ["build.failed"]; init_active := false;
       init_secret := None; init_headers := None |} in
  let r := subscribe Demo.numbered_uuid subscription 0 webhookService in
  r.1.1 = "uuid-0"
  ∧ (sub_id <$> Map_get "uuid-0" (subscriptions r.2)) = Some "mine"
  ∧ Map_get "mine" (subscriptions r.2) = None.
Proof. vm_compute. repeat split. Qed.

(** With no subscription, an emitted [build.failed] event is gone from the
    history as soon as [emit] is done. *)
Example history_is_empty_after_emit :
  let b := BusDemo.emit_on [] build_failed in
  emitted (trace b) = [BusDemo.build_failed_event]
  ∧ getEventHistory 100 (service b) = [].
Proof. vm_compute. split; reflexivity. Qed.

(** Of two subscriptions to [test.failed], one active and one not, only the
    active one is delivered to. *)
Example inactive_subscription_is_skipped :
  let b := BusDemo.emit_on [BusDemo.listener "on" true; BusDemo.listener "off" false]
             test_failed in
  map (fun d => sub_id d.2) (fetched (trace b)) = ["on"].
Proof. vm_compute. reflexivity. Qed.

(** ** Further properties of the webhook service *)

Import BusExtra.

(** *** The subscription map *)

Lemma Map_get_None_keys k (m : SubscriptionMap) : Map_get k m = None ↔ k ∉ map fst m.
Proof.
  induction m as [|[k' v'] m IH]; cbn.
  - split; [intros _; apply not_elem_of_nil | done].
  - rewrite not_elem_of_cons. destruct (String.eqb_spec k k') as [->|Hne].
    + split; [done | intros [? _]; done].
    + rewrite IH. tauto.
Qed.

Lemma Map_set_keys k v (m : SubscriptionMap) :
  map fst (Map_set k v m)
  = match Map_get k m with Some _ => map fst m | None => map fst m ++ [k] end.
Proof.
  induction m as [|[k' v'] m IH]; cbn; [done|].
  destruct (String.eqb_spec k k') as [->|Hne]; cbn; [done|].
  rewrite IH. by destruct (Map_get k m).
Qed.

Lemma Map_set_fresh k v (m : SubscriptionMap) :
  Map_get k m = None → Map_set k v m = m ++ [(k, v)].
Proof.
  induction m as [|[k' v'] m IH]; cbn; [done|].
  destruct (String.eqb k k'); [done|]. intros H. by rewrite IH.
Qed.

Lemma Map_delete_fresh k (m : SubscriptionMap) :
  Map_get k m = None → Map_delete k m = (false, m).
Proof.
  induction m as [|[k' v'] m IH]; cbn; [done|].
  destruct (String.eqb k k'); [done|]. intros H. by rewrite IH.
Qed.

Lemma Map_delete_snoc k v (m : SubscriptionMap) :
  Map_get k m = None → Map_delete k (m ++ [(k, v)]) = (true, m).
Proof.
  induction m as [|[k' v'] m IH]; cbn.
  - by rewrite String.eqb_refl.
  - destruct (String.eqb k k'); [done|]. intros H. by rewrite IH.
Qed.

Lemma Map_delete_found k (m : SubscriptionMap) :
  (Map_delete k m).1 = bool_decide (is_Some (Map_get k m)).
Proof.
  induction m as [|[k' v'] m IH]; cbn.
  - done.
  - destruct (String.eqb k k').
    + first [done | symmetry; by apply bool_decide_eq_true_2].
    + destruct (Map_delete k m) as [found rest]. cbn in *. done.
Qed.

Lemma Map_delete_keys k (m : SubscriptionMap) x :
  x ∈ map fst (Map_delete k m).2 → x ∈ map fst m.
Proof.
  induction m as [|[k' v'] m IH]; cbn; [done|].
  destruct (String.eqb k k'); cbn.
  - intros H. apply elem_of_cons. by right.
  - destruct (Map_delete k m) as [found rest]. cbn in *.
    rewrite !elem_of_cons. intros [->|H]; auto.
Qed.

Lemma Map_delete_gone k (m : SubscriptionMap) :
  NoDup (map fst m) → Map_get k (Map_delete k m).2 = None.
Proof.
  induction m as [|[k' v'] m IH]; cbn; [done|].
  intros [Hk Hm]%NoDup_cons. destruct (String.eqb_spec k k') as [->|Hne]; cbn.
  - by apply Map_get_None_keys.
  - destruct (Map_delete k m) as [found rest] eqn:E. cbn in *.
    destruct (String.eqb_spec k k'); [done|]. by apply IH.
Qed.

Lemma Map_delete_other k k' (m : SubscriptionMap) :
  k' ≠ k → Map_get k' (Map_delete k m).2 = Map_get k' m.
Proof.
  intros Hne. induction m as [|[k0 v0] m IH]; cbn; [done|].
  destruct (String.eqb_spec k k0) as [->|Hk]; cbn.
  - by destruct (String.eqb_spec k' k0).
  - destruct (Map_delete k m) as [found rest]. cbn in *.
    destruct (String.eqb k' k0); done.
Qed.

Lemma Map_delete_filter k (m : SubscriptionMap) :
  NoDup (map fst m) →
  (Map_delete k m).2 = List.filter (fun kv => negb (String.eqb kv.1 k)) m.
Proof.
  induction m as [|[k' v'] m IH]; cbn; [done|].
  intros [Hk Hm]%NoDup_cons. rewrite (String.eqb_sym k' k).
  destruct (String.eqb_spec k k') as [->|Hne]; cbn.
  - clear IH. induction m as [|[k0 v0] m IH]; cbn; [done|]. cbn in Hk, Hm.
    apply not_elem_of_cons in Hk as [Hk0 Hk]. apply NoDup_cons in Hm as [_ Hm].
    destruct (String.eqb_spec k0 k'); [done|]. cbn. f_equal. by apply IH.
  - destruct (Map_delete k m) as [found rest]. cbn in *. f_equal. by apply IH.
Qed.

Lemma store_ok_set k v (m : SubscriptionMap) :
  active v = true → store_ok m → store_ok (Map_set k v m).
Proof.
  intros Hact [Hnd Hall]. split.
  - rewrite Map_set_keys. destruct (Map_get k m) eqn:E; [done|].
    apply NoDup_app. split; [done|]. split; [|apply NoDup_singleton].
    intros x Hx ->%list_elem_of_singleton. by apply Map_get_None_keys in E.
  - clear Hnd. induction m as [|[k' v'] m IH]; cbn.
    + by repeat constructor.
    + apply Forall_cons in Hall as [H1 H2].
      destruct (String.eqb k k'); constructor; auto.
Qed.

Lemma store_ok_delete k (m : SubscriptionMap) : store_ok m → store_ok (Map_delete k m).2.
Proof.
  intros [Hnd Hall]. split.
  - induction m as [|[k' v'] m IH]; cbn; [done|].
    cbn in Hnd. apply NoDup_cons in Hnd as [Hk Hm].
    apply Forall_cons in Hall as [_ Hall].
    destruct (String.eqb k k'); cbn; [done|].
    pose proof (Map_delete_keys k m k') as Hin.
    destruct (Map_delete k m) as [found rest]. cbn in *.
    apply NoDup_cons. split; [intros H; apply Hk, Hin, H | by apply IH].
  - clear Hnd. induction m as [|[k' v'] m IH]; cbn; [done|].
    apply Forall_cons in Hall as [H1 H2].
    destruct (String.eqb k k'); cbn; [done|].
    destruct (Map_delete k m) as [found rest]. cbn in *.
    constructor; auto.
Qed.

Lemma hex_decode_pair b s :
  hex_decode (hex_pair b +:+ s) = (fun bs => b :: bs) <$> hex_decode s.
Proof.
  destruct b; unfold hex_pair;
    match goal with
    | |- hex_decode (String ?hi (String ?lo "") +:+ s) = _ =>
        change (String hi (String lo "") +:+ s) with (String hi (String lo s))
    end;
    cbn [hex_decode]; destruct (hex_decode s); vm_compute; reflexivity.
Qed.

Lemma hex_decode_encode bs : hex_decode (hex_encode bs) = Some bs.
Proof.
  induction bs as [|b bs IH]; [done|].
  cbn [hex_encode]. by rewrite hex_decode_pair, IH.
Qed.

Lemma hex_encode_length bs : String.length (hex_encode bs) = 2 * length bs.
Proof.
  induction bs as [|b bs IH]; [done|].
  cbn [hex_encode length].
  assert (∃ hi lo, hex_pair b = String hi (String lo "")) as (hi & lo & ->).
  { destruct b; vm_compute; eauto. }
  change (String hi (String lo "") +:+ hex_encode bs)
    with (String hi (String lo (hex_encode bs))).
  cbn [String.length]. rewrite IH. lia.
Qed.

Lemma append_inj_r (p s1 s2 : string) : p +:+ s1 = p +:+ s2 → s1 = s2.
Proof.
  induction p as [|c p IH]; [done|]. intros H.
  change (String c (p +:+ s1) = String c (p +:+ s2)) in H. injection H. exact IH.
Qed.

Lemma length_append (p s : string) :
  String.length (p +:+ s) = String.length p + String.length s.
Proof.
  induction p as [|c p IH]; [done|].
  change (S (String.length (p +:+ s)) = S (String.length p + String.length s)).
  by rewrite IH.
Qed.

Lemma substring_append (p s : string) :
  String.substring (String.length p) (String.length s) (p +:+ s) = s.
Proof.
  induction p as [|c p IH].
  - change (String.substring 0 (String.length s) s = s).
    induction s as [|c s IH]; [done|]. cbn. by rewrite IH.
  - exact IH.
Qed.

Section WebhookExtras.

Context {World : Type}.
Variable randomUUID : World -> string * World.
Variable Date_now_toISOString : World -> string * World.
Variable hmac_sha256 : list byte -> list byte -> list byte.
Variable JSON_stringify : WebhookEvent -> string.

Local Abbreviation drain_next' := (drain_next hmac_sha256 JSON_stringify).
Local Abbreviation step' :=
  (step randomUUID Date_now_toISOString hmac_sha256 JSON_stringify).
Local Abbreviation run' :=
  (run randomUUID Date_now_toISOString hmac_sha256 JSON_stringify).
Local Abbreviation emit' :=
  (emit randomUUID Date_now_toISOString hmac_sha256 JSON_stringify).
Local Abbreviation inv := (@bus_inv World).

(** *** Signatures *)

(** X1: for keys [importKey] takes, validation is exactly equality of
    digests.  For non-empty secrets both signatures are generated, and the
    signature generated for one payload and secret is accepted for another
    payload and secret if and only if the two HMAC digests are equal: the
    hex rendering loses nothing (it can be read back), and a signature is
    [7 + 2 * n] characters long for a digest of [n] bytes. *)
Theorem validateSignature_accepts_exactly_equal_digests
        (payload secret payload' secret' : string) :
  secret ≠ "" →
  secret' ≠ "" →
  let digest := hmac_sha256 (TextEncoder_encode secret) (TextEncoder_encode payload) in
  let digest' := hmac_sha256 (TextEncoder_encode secret') (TextEncoder_encode payload') in
  ∃ signature signature',
    generateSignature hmac_sha256 payload secret = Some signature
    ∧ generateSignature hmac_sha256 payload' secret' = Some signature'
    ∧ (∃ accepted,
          validateSignature hmac_sha256 payload signature' secret = Some accepted
          ∧ (accepted = true ↔ digest' = digest))
    ∧ String.length signature = 7 + 2 * length digest
    ∧ hex_decode (String.substring 7 (String.length signature - 7) signature)
      = Some digest.
Proof.
  intros Hne Hne'. cbn zeta.
  set (d := hmac_sha256 (TextEncoder_encode secret) (TextEncoder_encode payload)).
  set (d' := hmac_sha256 (TextEncoder_encode secret') (TextEncoder_encode payload')).
  eexists _, _.
  split; [by apply generateSignature_resolves|].
  split; [by apply generateSignature_resolves|].
  fold d d'. split; [|split].
  - unfold validateSignature. rewrite generateSignature_resolves by done. fold d.
    eexists. split; [reflexivity|]. rewrite String.eqb_eq. split.
    + intros H%append_inj_r.
      apply (f_equal hex_decode) in H. rewrite !hex_decode_encode in H. congruence.
    + by intros ->.
  - by rewrite length_append, hex_encode_length.
  - rewrite length_append.
    replace (String.length "sha256=" + String.length (hex_encode d) - 7)
      with (String.length (hex_encode d)) by (cbn; lia).
    change 7 with (String.length "sha256=").
    rewrite substring_append. apply hex_decode_encode.
Qed.

(** X2: what a receiver checks succeeds.  For a subscription with a non-empty
    secret, the request of a delivery carries an [X-Webhook-Signature] header
    that [validateSignature] accepts for the body of that same request under
    the secret, whatever static headers the subscriber configured; the
    request is a POST to the subscription url. *)
Theorem delivered_signature_validates
        (event : WebhookEvent) (subscription : WebhookSubscription) (sec : string) :
  secret subscription = Some sec →
  sec ≠ "" →
  let r := deliverEvent_request hmac_sha256 JSON_stringify event subscription in
  req_method r = "POST"
  ∧ req_url r = url subscription
  ∧ ∃ signature,
      req_headers r !! "X-Webhook-Signature" = Some signature
      ∧ validateSignature hmac_sha256 (req_body r) signature sec = Some true.
Proof.
  intros Hsec Hne. cbn zeta. unfold deliverEvent_request, deliverEvent_headers. cbn.
  rewrite Hsec. unfold JS.truthy. destruct (String.eqb_spec sec ""); [done|]. cbn.
  rewrite generateSignature_resolves by done.
  split; [done|]. split; [done|].
  eexists. split; [apply lookup_insert_eq|].
  unfold validateSignature. rewrite generateSignature_resolves by done.
  by rewrite String.eqb_refl.
Qed.

(** *** The subscription map along runs *)

Lemma drain_next_subscriptions i (b : Bus World) :
  subscriptions (service (drain_next' i b)) = subscriptions (service b).
Proof. unfold drain_next. by destruct (eventQueue (service b)). Qed.

Lemma step_store (b : Bus World) l :
  store_ok (subscriptions (service b)) → store_ok (subscriptions (service (step' b l))).
Proof.
  destruct b as [s w ds tr]. intros Hok.
  destruct l as [subscription|subscriptionId|eventType data source|i k o|i];
    cbn [step trace service drains world] in *.
  - unfold subscribe. destruct (randomUUID w) as [uuid w']. cbn.
    by apply store_ok_set.
  - unfold unsubscribe.
    pose proof (store_ok_delete subscriptionId _ Hok) as H.
    by destruct (Map_delete subscriptionId (subscriptions s)).
  - unfold emit. cbn. destruct (randomUUID w) as [uuid w1].
    destruct (Date_now_toISOString w1) as [now w2].
    destruct (negb (isProcessing s)); [|done].
    unfold processQueue. by rewrite drain_next_subscriptions.
  - unfold settle. cbn. destruct (ds !! i) as [pending|]; [|done].
    by destruct (pending !! k).
  - unfold resume. cbn. destruct (ds !! i) as [[|d pending]|]; try done.
    by rewrite drain_next_subscriptions.
Qed.

Lemma run_store ls : ∀ b : Bus World,
  store_ok (subscriptions (service b)) →
  store_ok (subscriptions (service (run' ls b))).
Proof.
  induction ls as [|l ls IH]; intros b Hb; [done|].
  cbn. apply IH, step_store, Hb.
Qed.

Lemma fresh_store_ok : store_ok [].
Proof. split; constructor. Qed.

Lemma filter_active_all (m : SubscriptionMap) :
  store_ok m → List.filter (fun sub => active sub) (Map_values m) = Map_values m.
Proof.
  intros [_ Hall]. unfold Map_values.
  induction m as [|[k v] m IH]; [done|].
  apply Forall_cons in Hall as [Hact Hall]. cbn in *. rewrite Hact. f_equal. by apply IH.
Qed.

(** X3: nothing deactivates a subscription.  On every run of a service that
    started with no subscriptions, no key of the map is stored twice and
    every stored subscription is active, so [getSubscriptions] returns every
    stored subscription, in insertion order: its filter on [active] removes
    nothing. *)
Theorem subscriptions_are_never_deactivated (w : World) (ls : list Label) :
  let s := service (run' ls (idle_bus [] w)) in
  store_ok (subscriptions s)
  ∧ getSubscriptions s = Map_values (subscriptions s).
Proof.
  cbn zeta. pose proof (run_store ls (idle_bus [] w) fresh_store_ok) as Hok.
  split; [exact Hok|]. by apply filter_active_all.
Qed.

(** X4: [unsubscribe] is idempotent.  On every run of a service that started
    with no subscriptions, [unsubscribe] reports whether the id was stored;
    afterwards the id is gone, a second [unsubscribe] of it returns false and
    changes nothing, every other id maps to what it mapped to, and the queue
    and the processing flag are untouched. *)
Theorem unsubscribe_is_idempotent (w : World) (ls : list Label) (subscriptionId : string) :
  let s := service (run' ls (idle_bus [] w)) in
  let r := unsubscribe subscriptionId s in
  r.1 = bool_decide (is_Some (Map_get subscriptionId (subscriptions s)))
  ∧ Map_get subscriptionId (subscriptions r.2) = None
  ∧ unsubscribe subscriptionId r.2 = (false, r.2)
  ∧ (∀ other, other ≠ subscriptionId →
       Map_get other (subscriptions r.2) = Map_get other (subscriptions s))
  ∧ eventQueue r.2 = eventQueue s
  ∧ isProcessing r.2 = isProcessing s.
Proof.
  cbn zeta. pose proof (run_store ls (idle_bus [] w) fresh_store_ok) as [Hnd _].
  set (s := service (run' ls (idle_bus [] w))) in *.
  unfold unsubscribe.
  pose proof (Map_delete_found subscriptionId (subscriptions s)) as Hfound.
  pose proof (Map_delete_gone subscriptionId (subscriptions s) Hnd) as Hgone.
  pose proof (fun k => Map_delete_other subscriptionId k (subscriptions s)) as Hother.
  destruct (Map_delete subscriptionId (subscriptions s)) as [found rest]. cbn in *.
  split; [done|]. split; [done|]. split.
  { rewrite (Map_delete_fresh _ _ Hgone). by destruct s. }
  split; [|done]. intros other Hne. by apply Hother.
Qed.

Lemma relevant_by_entries (event : WebhookEvent) (s : WebhookService) :
  relevant event s = map snd (relevant_entries event (subscriptions s)).
Proof.
  unfold relevant, relevant_entries, Map_values.
  induction (subscriptions s) as [|[k v] m IH]; [done|].
  cbn. destruct (active v && _); cbn; by rewrite IH.
Qed.

Lemma filter_filter_comm {A} (P Q : A → bool) (l : list A) :
  List.filter P (List.filter Q l) = List.filter Q (List.filter P l).
Proof.
  induction l as [|x l IH]; [done|].
  cbn. destruct (P x) eqn:EP, (Q x) eqn:EQ; cbn; rewrite ?EP, ?EQ, IH; done.
Qed.

(** X5: an unsubscribed key gets no more deliveries, and nobody else is
    affected.  On every run of a service that started with no
    subscriptions, the subscriptions an event is delivered to are those of
    the map entries that are active and list its type, in insertion order;
    after [unsubscribe] of a key they are those of the same entries without
    the one stored under that key, in the same order. *)
Theorem unsubscribed_gets_no_delivery
        (w : World) (ls : list Label) (subscriptionId : string) (event : WebhookEvent) :
  let s := service (run' ls (idle_bus [] w)) in
  relevant event s = map snd (relevant_entries event (subscriptions s))
  ∧ relevant event (unsubscribe subscriptionId s).2
    = map snd
        (List.filter (fun kv => negb (String.eqb kv.1 subscriptionId))
           (relevant_entries event (subscriptions s))).
Proof.
  cbn zeta. pose proof (run_store ls (idle_bus [] w) fresh_store_ok) as [Hnd _].
  set (s := service (run' ls (idle_bus [] w))) in *.
  split; [apply relevant_by_entries|].
  rewrite relevant_by_entries. unfold unsubscribe.
  pose proof (Map_delete_filter subscriptionId (subscriptions s) Hnd) as Hfilter.
  destruct (Map_delete subscriptionId (subscriptions s)) as [found rest]. cbn in *.
  subst rest. unfold relevant_entries. by rewrite filter_filter_comm.
Qed.

(** X6: subscribing and unsubscribing undo each other.  When the id drawn
    for a new subscription is not stored yet, [unsubscribe] of the id that
    [subscribe] returned reports true and leaves the service exactly as it
    was before the [subscribe]. *)
Theorem subscribe_then_unsubscribe_restores
        (subscription : SubscriptionInit) (w : World) (s : WebhookService) :
  Map_get (randomUUID w).1 (subscriptions s) = None →
  let r := subscribe randomUUID subscription w s in
  unsubscribe r.1.1 r.2 = (true, s).
Proof.
  intros Hfresh. cbn zeta. unfold subscribe, unsubscribe.
  destruct (randomUUID w) as [uuid w'] eqn:E. cbn in *.
  rewrite (Map_set_fresh _ _ _ Hfresh), (Map_delete_snoc _ _ _ Hfresh).
  by destruct s.
Qed.


(** *** The queue and its history *)

Lemma getEventHistory_positive (n : nat) (s : WebhookService) :
  getEventHistory (Z.of_nat (S n)) s
  = drop (length (eventQueue s) - S n) (eventQueue s).
Proof.
  unfold getEventHistory, JS.slice.
  destruct (Z.ltb_spec (- Z.of_nat (S n)) 0); [|lia]. f_equal. lia.
Qed.

(** X7: what [getEventHistory] returns.  For a positive limit [n] it is the
    last [min n len] events of the queue of events not yet taken, and never
    more than [n]; for limit [0] it is the whole queue, not the empty list
    (the start index [-0] is [0]); for a negative limit [-n] it is the queue
    without its first [n] events. *)
Theorem getEventHistory_returns_queue_tail (n : nat) (s : WebhookService) :
  let queue := eventQueue s in
  getEventHistory (Z.of_nat (S n)) s = drop (length queue - S n) queue
  ∧ length (getEventHistory (Z.of_nat (S n)) s) = Nat.min (S n) (length queue)
  ∧ getEventHistory 0 s = queue
  ∧ getEventHistory (- Z.of_nat (S n)) s = drop (S n) queue.
Proof.
  cbn zeta. rewrite !getEventHistory_positive.
  split; [done|]. split; [rewrite length_drop; lia|].
  unfold getEventHistory, JS.slice. set (q := eventQueue s).
  split.
  - cbn. destruct (Z.of_nat (length q)); done.
  - rewrite Z.opp_involutive.
    destruct (Z.ltb_spec (Z.of_nat (S n)) 0); [lia|].
    destruct (Nat.le_gt_cases (S n) (length q)).
    + f_equal. lia.
    + replace (Z.to_nat (Z.min (Z.of_nat (S n)) (Z.of_nat (length q)))) with (length q) by lia.
      rewrite List.skipn_all2 by lia. rewrite drop_ge by lia. done.
Qed.

(** X8: while a drain is in progress an emitted event waits in the queue.
    [emit] on a service whose [isProcessing] flag is set builds the event
    with the given type and data and the default source [sdlc-agent] when
    none is given, appends it to the queue, starts no delivery and no
    drain, and the event is the last one [getEventHistory] returns for every
    positive limit. *)
Theorem emit_while_draining_queues_the_event
        (subs : SubscriptionMap) (queue : list WebhookEvent) (w : World)
        (ds : list (list Delivery)) (tr : list Obs)
        (eventType : WebhookEventType) (data : string) (source : option string) (n : nat) :
  let b := emit' eventType data source
             {| service := {| subscriptions := subs; eventQueue := queue;
                              isProcessing := true |};
                world := w; drains := ds; trace := tr |} in
  ∃ event,
    type event = event_type_name eventType
    ∧ Webhook.data event = data
    ∧ Webhook.source event = default "sdlc-agent" source
    ∧ eventQueue (service b) = queue ++ [event]
    ∧ trace b = tr ++ [ObsEmit event]
    ∧ drains b = ds
    ∧ isProcessing (service b) = true
    ∧ last (getEventHistory (Z.of_nat (S n)) (service b)) = Some event.
Proof.
  cbn zeta. unfold emit. cbn.
  destruct (randomUUID w) as [uuid w1]. destruct (Date_now_toISOString w1) as [now w2].
  cbn.
  exists {| id := uuid; type := event_type_name eventType; timestamp := now;
            Webhook.data := data; Webhook.source := default "sdlc-agent" source |}.
  repeat (split; [reflexivity|]).
  rewrite getEventHistory_positive. cbn [eventQueue set_eventQueue].
  rewrite length_app. cbn [length].
  rewrite drop_app_le by lia. apply last_snoc.
Qed.

(** *** Quiescence *)

Lemma step_caught_up (b : Bus World) l :
  inv b →
  isProcessing (service b) = true ∨ eventQueue (service b) = [] →
  isProcessing (service (step' b l)) = true ∨ eventQueue (service (step' b l)) = [].
Proof.
  intros [_ _ _ Hsingle] Hc. destruct b as [s w ds tr].
  cbn [trace service drains world] in *.
  destruct l as [subscription|subscriptionId|eventType data source|i k o|i];
    cbn [step trace service drains world].
  - unfold subscribe. by destruct (randomUUID w).
  - unfold unsubscribe. by destruct (Map_delete _ _).
  - unfold emit. cbn. destruct (randomUUID w) as [uuid w1].
    destruct (Date_now_toISOString w1) as [now w2].
    destruct (isProcessing s) eqn:Hp; cbn; [by left|].
    destruct Hc as [?|Hq]; [done|]. rewrite Hq. cbn. by left.
  - unfold settle. cbn. destruct (ds !! i) as [pending|]; [|done].
    by destruct (pending !! k).
  - unfold resume. cbn. destruct (ds !! i) as [[|d pending]|] eqn:Hi; try done.
    destruct Hsingle as [(-> & _)|(pending' & -> & Hproc)]; [done|].
    unfold drain_next. cbn. destruct (eventQueue s) eqn:Hq; cbn; rewrite ?Hq; [by right | by left].
Qed.

Lemma run_caught_up ls : ∀ b : Bus World,
  inv b →
  isProcessing (service b) = true ∨ eventQueue (service b) = [] →
  isProcessing (service (run' ls b)) = true ∨ eventQueue (service (run' ls b)) = [].
Proof.
  induction ls as [|l ls IH]; intros b Hb Hc; [done|].
  cbn. apply IH; [by apply step_inv | by apply step_caught_up].
Qed.

(** X9: nothing is left behind when the bus is at rest.  On every run from
    rest, either a drain is in progress, or the queue is empty, no drain and
    no delivery is outstanding, and every event emitted so far has been
    taken. *)
Theorem bus_at_rest_has_taken_every_event
        (subs : SubscriptionMap) (w : World) (ls : list Label) :
  let b := run' ls (idle_bus subs w) in
  isProcessing (service b) = true
  ∨ (eventQueue (service b) = []
     ∧ drains b = []
     ∧ outstanding (trace b) = Some 0
     ∧ shifted (trace b) = emitted (trace b)).
Proof.
  cbn zeta.
  pose proof (run_inv randomUUID Date_now_toISOString hmac_sha256 JSON_stringify
                ls _ (idle_inv subs w)) as Hinv.
  pose proof (run_caught_up ls (idle_bus subs w) (idle_inv subs w) (or_intror eq_refl)) as Hc.
  destruct Hinv as [Hfifo _ Hout Hsingle].
  destruct Hc as [Hp|Hq]; [by left|].
  destruct Hsingle as [(Hd & Hp)|(pending & _ & Hp)]; [|by left].
  right. rewrite Hq, app_nil_r in Hfifo. rewrite Hd in Hout. done.
Qed.


(** *** Draining the bus *)

Lemma run_app (l1 l2 : list Label) (b : Bus World) :
  run' (l1 ++ l2) b = run' l2 (run' l1 b).
Proof. apply fold_left_app. Qed.

Lemma run_cons (l : Label) (ls : list Label) (b : Bus World) :
  run' (l :: ls) b = run' ls (step' b l).
Proof. reflexivity. Qed.

Lemma settle_all (n : nat) : ∀ (b : Bus World) (pending : list Delivery),
  drains b = [pending] → (length pending ≤ n)%nat →
  service (run' (repeat (Settle 0 0 (Responded true 200 "OK")) n) b) = service b
  ∧ world (run' (repeat (Settle 0 0 (Responded true 200 "OK")) n) b) = world b
  ∧ drains (run' (repeat (Settle 0 0 (Responded true 200 "OK")) n) b) = [[]].
Proof.
  induction n as [|n IH]; intros b pending Hd Hl.
  - destruct pending; [done | cbn in Hl; lia].
  - cbn [repeat]. rewrite run_cons. cbn [step]. unfold settle. rewrite Hd.
    destruct pending as [|d pending].
    + cbn [lookup list_lookup]. apply (IH b []); [done | cbn; lia].
    + cbn [lookup list_lookup].
      match goal with
      | |- context [run' _ ?b1] =>
          destruct (IH b1 pending eq_refl ltac:(cbn in Hl; lia)) as (H1 & H2 & H3)
      end.
      by rewrite H1, H2, H3.
Qed.

Lemma relevant_length event s :
  (length (relevant event s) ≤ length (subscriptions s))%nat.
Proof.
  unfold relevant, Map_values. rewrite <- (length_map snd (subscriptions s)).
  induction (map snd (subscriptions s)) as [|x l IH]; cbn; [done|].
  destruct (active x && _); cbn; lia.
Qed.

Lemma flush_round_step (n : nat) (b : Bus World) (pending : list Delivery) :
  drains b = [pending] → (length pending ≤ n)%nat →
  ∃ tr', run' (flush_round n) b
         = drain_next' 0 {| service := service b; world := world b;
                            drains := [[]]; trace := tr' |}.
Proof.
  intros Hd Hp. unfold flush_round. rewrite run_app.
  destruct (settle_all n b pending Hd Hp) as (H1 & H2 & H3).
  destruct (run' (repeat (Settle 0 0 (Responded true 200 "OK")) n) b) as [s1 w1 d1 t1].
  cbn in H1, H2, H3. subst s1 w1 d1. exists t1. reflexivity.
Qed.

Lemma flush_queue (n : nat) : ∀ (k : nat) (b : Bus World) (pending : list Delivery),
  drains b = [pending] → (length pending ≤ n)%nat →
  (length (subscriptions (service b)) ≤ n)%nat →
  length (eventQueue (service b)) = k →
  let b' := run' (concat (repeat (flush_round n) (S k))) b in
  eventQueue (service b') = []
  ∧ isProcessing (service b') = false
  ∧ drains b' = []
  ∧ subscriptions (service b') = subscriptions (service b)
  ∧ world b' = world b.
Proof.
  induction k as [|k IH]; intros b pending Hd Hp Hs Hq; cbn zeta.
  - change (concat (repeat (flush_round n) 1)) with (flush_round n ++ []).
    rewrite app_nil_r.
    destruct (flush_round_step n b pending Hd Hp) as (tr' & ->).
    unfold drain_next. cbn [service eventQueue].
    destruct (eventQueue (service b)) eqn:E; [|done]. cbn. by rewrite E.
  - change (concat (repeat (flush_round n) (S (S k))))
      with (flush_round n ++ concat (repeat (flush_round n) (S k))).
    rewrite run_app.
    destruct (flush_round_step n b pending Hd Hp) as (tr' & ->).
    unfold drain_next. cbn [service eventQueue world drains trace].
    destruct (eventQueue (service b)) as [|event rest] eqn:E; [done|].
    cbn [insert list_insert].
    match goal with
    | |- context [run' _ ?b2] =>
        destruct (IH b2 (map (Build_Delivery event) (relevant event (service b))))
          as (Q1 & Q2 & Q3 & Q4 & Q5)
    end.
    + done.
    + rewrite length_map. etransitivity; [apply relevant_length | done].
    + done.
    + cbn in Hq |- *. lia.
    + by rewrite Q1, Q2, Q3, Q4, Q5.
Qed.

Lemma run_no_emit ls : ∀ b : Bus World,
  forallb settle_or_resume ls = true →
  emitted (trace (run' ls b)) = emitted (trace b).
Proof.
  induction ls as [|l ls IH]; intros b H; [done|].
  cbn in H. apply andb_prop in H as [Hl Hls]. rewrite run_cons.
  rewrite (IH _ Hls). clear IH Hls.
  destruct b as [s w ds tr]. destruct l as [| | |i k o|i]; try done; cbn.
  - unfold settle. cbn. destruct (ds !! i) as [pending|]; [|done].
    destruct (pending !! k) as [d|]; [|done]. cbn.
    rewrite emitted_app. cbn. by rewrite emitted_console, app_nil_r.
  - unfold resume. cbn. destruct (ds !! i) as [[|d pending]|]; try done.
    unfold drain_next. cbn. destruct (eventQueue s) as [|event rest]; cbn.
    + by rewrite emitted_app, app_nil_r.
    + rewrite emitted_app. cbn. by rewrite emitted_fetches, app_nil_r.
Qed.

Lemma run_idle ls : ∀ b : Bus World,
  forallb settle_or_resume ls = true → drains b = [] → run' ls b = b.
Proof.
  induction ls as [|l ls IH]; intros b H Hd; [done|].
  cbn in H. apply andb_prop in H as [Hl Hls]. rewrite run_cons.
  assert (step' b l = b) as ->; [|by apply IH].
  destruct l as [| | |i k o|i]; try done; cbn; unfold settle, resume; by rewrite Hd.
Qed.

Lemma flush_labels_shape (b : Bus World) :
  forallb settle_or_resume (flush_labels b) = true.
Proof.
  unfold flush_labels. generalize (S (length (eventQueue (service b)))).
  generalize (length (subscriptions (service b)) `max` length (concat (drains b))).
  intros n k. induction k as [|k IH]; [done|].
  cbn [repeat concat]. rewrite forallb_app, IH, andb_true_r.
  unfold flush_round. rewrite forallb_app.
  assert (forallb settle_or_resume (repeat (Settle 0 0 (Responded true 200 "OK")) n) = true)
    as -> by (clear; induction n as [|n IHn]; [reflexivity | exact IHn]).
  reflexivity.
Qed.

(** X10: the bus can always be drained.  From every state a run from rest
    can reach, letting every pending delivery settle and the drain resume,
    one round per queued event and one more, empties the queue, ends the
    drain and clears [isProcessing]; by then every event emitted has been
    taken, and neither the subscriptions nor the world were touched. *)
Theorem bus_can_always_be_drained (subs : SubscriptionMap) (w : World) (ls : list Label) :
  let b := run' ls (idle_bus subs w) in
  let b' := run' (flush_labels b) b in
  eventQueue (service b') = []
  ∧ isProcessing (service b') = false
  ∧ drains b' = []
  ∧ shifted (trace b') = emitted (trace b)
  ∧ subscriptions (service b') = subscriptions (service b)
  ∧ world b' = world b.
Proof.
  cbn zeta. set (b := run' ls (idle_bus subs w)).
  pose proof (run_inv randomUUID Date_now_toISOString hmac_sha256 JSON_stringify
                ls _ (idle_inv subs w)) as Hinv. fold b in Hinv.
  pose proof (run_caught_up ls (idle_bus subs w) (idle_inv subs w) (or_intror eq_refl)) as Hc.
  fold b in Hc.
  pose proof (run_inv randomUUID Date_now_toISOString hmac_sha256 JSON_stringify
                (flush_labels b) b Hinv) as [Hfifo' _ _ _].
  pose proof (run_no_emit (flush_labels b) b (flush_labels_shape b)) as Hemit.
  assert (eventQueue (service (run' (flush_labels b) b)) = []
          ∧ isProcessing (service (run' (flush_labels b) b)) = false
          ∧ drains (run' (flush_labels b) b) = []
          ∧ subscriptions (service (run' (flush_labels b) b)) = subscriptions (service b)
          ∧ world (run' (flush_labels b) b) = world b) as (Q1 & Q2 & Q3 & Q4 & Q5).
  { destruct Hinv as [_ _ _ [(Hd & Hp)|(pending & Hd & Hp)]].
    - rewrite (run_idle _ b (flush_labels_shape b) Hd).
      destruct Hc as [Hc|Hc]; [congruence|]. done.
    - unfold flush_labels. rewrite Hd. cbn [concat]. rewrite app_nil_r.
      eapply flush_queue; [exact Hd | lia | lia | done]. }
  rewrite Q1, app_nil_r in Hfifo'. rewrite Hfifo', Hemit. done.
Qed.

End WebhookExtras.

(** X1, witness: one payload signed under two different secrets. *)
Lemma validateSignature_accepts_exactly_equal_digests_witness :
  let digest := BusDemo.stub_hmac (TextEncoder_encode "s3cret") (TextEncoder_encode "{}") in
  let digest' := BusDemo.stub_hmac (TextEncoder_encode "other") (TextEncoder_encode "{}") in
  ∃ signature signature',
    generateSignature BusDemo.stub_hmac "{}" "s3cret" = Some signature
    ∧ generateSignature BusDemo.stub_hmac "{}" "other" = Some signature'
    ∧ (∃ accepted,
          validateSignature BusDemo.stub_hmac "{}" signature' "s3cret" = Some accepted
          ∧ (accepted = true ↔ digest' = digest))
    ∧ String.length signature = 7 + 2 * length digest
    ∧ hex_decode (String.substring 7 (String.length signature - 7) signature)
      = Some digest.
Proof.
  apply (validateSignature_accepts_exactly_equal_digests BusDemo.stub_hmac
           "{}" "s3cret" "{}" "other"); discriminate.
Defined.

(** X2, witness: a subscriber with the secret [s3cret], whose static headers
    try to set the signature themselves. *)
Lemma delivered_signature_validates_witness :
  let r := deliverEvent_request BusDemo.stub_hmac BusDemo.stub_json
             BusDemo.build_failed_event SigningDemo.signing in
  req_method r = "POST"
  ∧ req_url r = url SigningDemo.signing
  ∧ ∃ signature,
      req_headers r !! "X-Webhook-Signature" = Some signature
      ∧ validateSignature BusDemo.stub_hmac (req_body r) signature "s3cret" = Some true.
Proof.
  apply (delivered_signature_validates BusDemo.stub_hmac BusDemo.stub_json
           BusDemo.build_failed_event SigningDemo.signing "s3cret").
  - reflexivity.
  - discriminate.
Defined.

(** X6, witness: a first subscription on the fresh service. *)
Lemma subscribe_then_unsubscribe_restores_witness :
  let r := subscribe Demo.numbered_uuid SigningDemo.signing_init 0 webhookService in
  unsubscribe r.1.1 r.2 = (true, webhookService).
Proof.
  apply (subscribe_then_unsubscribe_restores Demo.numbered_uuid
           SigningDemo.signing_init 0 webhookService).
  reflexivity.
Defined.

(** ** Properties of the task router *)

Section RouterTheorems.
Import Router.

Context {World Agent : Type}.
Variable getAgentsForTask : string -> World -> Awaited (list Agent) * World.
Variable sendTaskToAgent : Agent -> Task -> World -> Awaited bool * World.

Local Abbreviation route_loop' := (route_loop sendTaskToAgent).
Local Abbreviation routeTask' := (routeTask getAgentsForTask sendTaskToAgent).

Lemma route_loop_order task agents : ∀ w sent,
  let r := route_loop' task agents w sent in
  ∃ new,
    contacted r = sent ++ new
    ∧ map fst new `prefix_of` agents
    ∧ Forall (fun a => a = Resolved false) (map snd (removelast new))
    ∧ match settled r with
      | Rejected reason =>
          console r = [] ∧ ∃ agent, last new = Some (agent, Rejected reason)
      | Resolved _ =>
          (console r = [console_log ("Task " +:+ task_id task +:+ " routed successfully.")]
           ∧ ∃ agent, last new = Some (agent, Resolved true))
          ∨ (console r = [console_error ("Failed to route task " +:+ task_id task +:+ ".")]
             ∧ map fst new = agents
             ∧ Forall (fun a => a = Resolved false) (map snd new))
      end.
Proof.
  induction agents as [|agent rest IH]; intros w sent; cbn zeta; cbn [route_loop].
  { exists []. rewrite app_nil_r. cbn.
    split; [done|]. split; [apply prefix_nil|]. split; [constructor|].
    right. done. }
  destruct (sendTaskToAgent agent task w).1 as [[|]|reason] eqn:Hanswer; cbn.
  - exists [(agent, Resolved true)]. cbn. repeat split.
    + apply prefix_cons, prefix_nil.
    + constructor.
    + left. eauto.
  - destruct (IH (sendTaskToAgent agent task w).2 (sent ++ [(agent, Resolved false)]))
      as (new & Hc & Hp & Hd & Hs).
    exists ((agent, Resolved false) :: new).
    split; [by rewrite Hc, <- app_assoc|].
    split; [cbn; by apply prefix_cons|].
    split.
    { destruct new as [|x new]; [constructor|].
      change (removelast ((agent, Resolved false) :: x :: new))
        with ((agent, Resolved false) :: removelast (x :: new)).
      cbn [map snd]. by constructor. }
    destruct (settled _) as [[]|reason].
    + destruct Hs as [(Hcon & a & Hl)|(Hcon & Hall & Hdecl)].
      * left. split; [exact Hcon|]. exists a. destruct new; [done|]. exact Hl.
      * right. split; [exact Hcon|]. cbn. rewrite Hall. split; [done|].
        by constructor.
    + destruct Hs as (Hcon & a & Hl). split; [exact Hcon|]. exists a.
      destruct new; [done|]. exact Hl.
  - exists [(agent, Rejected reason)]. cbn. repeat split.
    + apply prefix_cons, prefix_nil.
    + constructor.
    + eauto.
Qed.

(** X18: [routeTask] offers the task to the suitable agents in the order
    [getAgentsForTask] gave them and stops at the first answer that is not
    a refusal.  The agents contacted are an initial segment of the
    suitable ones and every agent before the last one contacted refused.
    When the call resolves it has written exactly one console line: the
    success line, and then the last agent contacted accepted, or the
    failure line, and then every suitable agent was contacted and refused.
    When an agent's answer rejects, the call rejects with the same reason
    and writes nothing. *)
Theorem routeTask_stops_at_first_taker (task : Task) (w : World) :
  let r := routeTask' task w in
  match (getAgentsForTask (task_type task) w).1 with
  | Rejected reason =>
      settled r = Rejected reason ∧ contacted r = [] ∧ console r = []
  | Resolved suitableAgents =>
      map fst (contacted r) `prefix_of` suitableAgents
      ∧ Forall (fun a => a = Resolved false) (earlier_answers (contacted r))
      ∧ match settled r with
        | Rejected reason =>
            console r = []
            ∧ ∃ agent, last (contacted r) = Some (agent, Rejected reason)
        | Resolved _ =>
            (console r = [console_log ("Task " +:+ task_id task
                                       +:+ " routed successfully.")]
             ∧ ∃ agent, last (contacted r) = Some (agent, Resolved true))
            ∨ (console r = [console_error ("Failed to route task " +:+ task_id task
                                           +:+ ".")]
               ∧ map fst (contacted r) = suitableAgents
               ∧ Forall (fun a => a = Resolved false) (map snd (contacted r)))
        end
  end.
Proof.
  cbn zeta. unfold routeTask, earlier_answers.
  destruct (getAgentsForTask (task_type task) w).1 as [agents|reason]; [|done].
  destruct (route_loop_order task agents (getAgentsForTask (task_type task) w).2 [])
    as (new & Hc & Hrest).
  cbn in Hc. rewrite Hc. exact Hrest.
Qed.

End RouterTheorems.

(** The first agent declines and the second accepts: both are contacted, in
    order, and the success line is written. *)
Example second_agent_takes_the_task :
  let r := Router.routeTask Router.two_agents Router.busy_declines
             {| Router.task_id := "t-1"; Router.task_type := "build";
                Router.payload := "{}" |} 0 in
  map fst (Router.contacted r) = ["busy"; "free"]
  ∧ Router.console r = [Router.console_log "Task t-1 routed successfully."].
Proof. vm_compute. split; reflexivity. Qed.

(** ** Properties of the AI provider hook *)

Section ProviderHookTheorems.
Import ProviderHook.

Context {Provider Response : Type}.
Variable provider_name : Provider -> string.

Lemma call_keeps_rest (st : HookState Provider) (c : Call Provider Response) :
  isLoading st = false →
  (currentProvider st = None ↔ currentProviderName st = None) →
  let st' := call provider_name st c in
  isLoading st' = false
  ∧ (currentProvider st' = None ↔ currentProviderName st' = None).
Proof.
  intros Hl Hp. destruct st as [p n l e]. cbn in *. subst l.
  destruct c as [name [[q|]|err]|answer|q|err]; cbn; try done.
  unfold call, updates_of, generateContent. cbn.
  destruct p as [p|]; cbn; [|done].
  destruct (answer p); cbn; done.
Qed.

Lemma calls_keep_rest (cs : list (Call Provider Response)) : ∀ st,
  isLoading st = false →
  (currentProvider st = None ↔ currentProviderName st = None) →
  isLoading (calls provider_name cs st) = false
  ∧ (currentProvider (calls provider_name cs st) = None
     ↔ currentProviderName (calls provider_name cs st) = None).
Proof.
  induction cs as [|c cs IH]; intros st Hl Hp; [done|].
  destruct (call_keeps_rest st c Hl Hp) as [Hl' Hp'].
  exact (IH _ Hl' Hp').
Qed.

(** X19: the provider hook is never left loading.  After any sequence of
    [switchProvider] and [generateContent] calls, adoptions of the default
    provider and failed initializations, however the factory and the
    providers settle, the loading flag is off, and a provider is selected
    exactly when a provider name is. *)
Theorem hook_is_never_left_loading (cs : list (Call Provider Response)) :
  let st := calls provider_name cs initial in
  isLoading st = false
  ∧ (currentProvider st = None ↔ currentProviderName st = None).
Proof. cbn zeta. by apply calls_keep_rest. Qed.

(** X20: a failed switch keeps the selection.  [switchProvider] always
    resolves, whatever the factory does: to true when the factory resolved
    with a provider, which is then selected under the requested name with
    the error cleared; to false otherwise, and then the provider and name
    selected before are kept, and the error is the message of the factory's
    rejection (or the fallback text when the thrown value is not an
    [Error]), or is cleared when the factory resolved without a provider.
    The first update switches the loading flag on and the last one
    switches it off. *)
Theorem failed_switch_keeps_selection (st : HookState Provider) (providerName : string)
        (factory : Awaited (option Provider)) :
  let s := switchProvider providerName factory in
  let st' := fold_left apply_update s.1 st in
  head s.1 = Some (setIsLoading true)
  ∧ last s.1 = Some (setIsLoading false)
  ∧ isLoading st' = false
  ∧ match factory with
     | Resolved (Some provider) =>
         s.2 = Resolved true
         ∧ currentProvider st' = Some provider
         ∧ currentProviderName st' = Some providerName
         ∧ error st' = None
     | Resolved None =>
         s.2 = Resolved false
         ∧ currentProvider st' = currentProvider st
         ∧ currentProviderName st' = currentProviderName st
         ∧ error st' = None
     | Rejected err =>
         s.2 = Resolved false
         ∧ currentProvider st' = currentProvider st
         ∧ currentProviderName st' = currentProviderName st
         ∧ error st' = Some (message_or "Failed to switch provider" err)
     end.
Proof. cbn zeta. destruct st as [p n l e], factory as [[q|]|err]; done. Qed.

(** X21: [generateContent] passes the provider's answer through.  With no
    provider selected it rejects with [No AI provider selected] and makes
    no state update.  With a provider selected it settles exactly as the
    provider's own call settles, a rejection being rethrown unchanged; the
    loading flag is off afterwards, and the error holds the rejection's
    message when the provider rejected and is cleared when it resolved.  In
    no case does it change the selected provider or its name. *)
Theorem generateContent_passes_answer_through (st : HookState Provider)
        (answer : Provider -> Awaited Response) :
  let g := generateContent st answer in
  let st' := fold_left apply_update g.1 st in
  currentProvider st' = currentProvider st
  ∧ currentProviderName st' = currentProviderName st
  ∧ match currentProvider st with
     | None => g = ([], Rejected (Error "No AI provider selected"))
     | Some provider =>
         g.2 = answer provider
         ∧ isLoading st' = false
         ∧ error st' = match answer provider with
                       | Resolved _ => None
                       | Rejected err =>
                           Some (message_or "Failed to generate content" err)
                       end
     end.
Proof.
  cbn zeta. destruct st as [p n l e]. unfold generateContent. cbn.
  destruct p as [p|]; [|done]. cbn. destruct (answer p); done.
Qed.

End ProviderHookTheorems.
